(** * Catalog integration helpers (openedx/core/djangoapps/catalog/utils.py)

    A shallow embedding of the catalog utilities of the LMS: the program
    fetcher, the program-type fetcher, the instructor aggregator and the
    two enrichment composers, together with the Python objects they work
    on.

    - Python values are trees of [None], integers, strings, lists and
      dicts.  A container that is shared between several holders (a
      program mapping handed out by the fetch utility) lives in a store
      and is referred to by a [VRef]; a container written inline is owned
      by its holder.
    - Every function is a computation in a state-and-exception monad over
      the store, the Django cache and a log of the calls made to the
      collaborators.
    - The collaborators themselves (the fetch utility, the token builder,
      the module store, the opaque-key parser) are variables of the
      section. *)

From stdpp Require Import gmap strings list sorting pretty.
From Stdlib Require Import ZArith.

Local Open Scope Z_scope.
Local Open Scope string_scope.

(** ** Python values *)

Definition loc := positive.

(** Hashable atoms: the values that can be dict keys. *)
Inductive key :=
| KNone
| KInt (z : Z)
| KStr (s : string).

Global Instance key_eq_dec : EqDecision key.
Proof. solve_decision. Defined.

#[warnings="-register-all"]
Inductive value :=
| VNone
| VInt (z : Z)
| VStr (s : string)
| VList (vs : list value)
| VDict (kvs : list (key * value))
| VRef (l : loc).

Definition of_key (k : key) : value :=
  match k with
  | KNone => VNone
  | KInt z => VInt z
  | KStr s => VStr s
  end.

(** [hash(v)]: [None] stands for [TypeError: unhashable type]. *)
Definition to_key (v : value) : option key :=
  match v with
  | VNone => Some KNone
  | VInt z => Some (KInt z)
  | VStr s => Some (KStr s)
  | VList _ | VDict _ | VRef _ => None
  end.

Lemma to_key_of_key k : to_key (of_key k) = Some k.
Proof. by destruct k. Qed.

Lemma of_key_to_key v k : to_key v = Some k → of_key k = v.
Proof. destruct v; simpl; intros; by simplify_eq. Qed.

(** ** Dicts as association lists with unique keys *)

Abbreviation dict := (list (key * value)).

Fixpoint dict_lookup (k : key) (d : dict) : option value :=
  match d with
  | [] => None
  | (k', v) :: d' => if decide (k = k') then Some v else dict_lookup k d'
  end.

(** [d[k] = v]: overwrite in place, or append. *)
Fixpoint dict_set (k : key) (v : value) (d : dict) : dict :=
  match d with
  | [] => [(k, v)]
  | (k', v') :: d' =>
      if decide (k = k') then (k', v) :: d' else (k', v') :: dict_set k v d'
  end.

(** [d.update(other)] *)
Definition dict_update (d other : dict) : dict :=
  foldl (λ acc kv, dict_set kv.1 kv.2 acc) d other.

(** ** Exceptions and results *)

Inductive exn :=
| StopIteration
| KeyError (k : value)
| TypeError
| AttributeError
| RuntimeError            (* maximum recursion depth exceeded *)
| ReferenceError          (* a reference to no object: cannot arise in Python *)
| External (what : string). (* raised by a collaborator *)

Inductive result (A : Type) :=
| Ok (a : A)
| Err (e : exn).
Global Arguments Ok {A} a.
Global Arguments Err {A} e.

(** ** Collaborator records *)

Record CatalogIntegration := {
  enabled : bool;
  service_username : string;
  internal_api_url : string;
  CACHE_KEY : string;
  is_cache_enabled : bool;
}.

Record EdxRestApiClient := {
  base_url : string;
  jwt : string;
}.

(** The arguments of one call of [get_edx_api_data]. *)
Record api_request := {
  req_config : CatalogIntegration;
  req_user : string;
  req_resource : string;
  req_resource_id : value;
  req_cache_key : option string;
  req_api : EdxRestApiClient;
  req_querystring : option (gmap string value);
}.

Record CourseDescriptor := {
  instructor_info : option value;   (* [None]: the attribute is missing *)
}.

Inductive event :=
| EvApi (r : api_request)
| EvCacheGet (k : string)
| EvCacheSet (k : string) (v : value).

(** ** The state and the monad *)

Record state := {
  heap : gmap loc value;
  cache : gmap string value;
  events : list event;
}.

Definition M (A : Type) : Type := state → result A * state.

Global Instance M_ret : MRet M := λ A a st, (Ok a, st).
Global Instance M_bind : MBind M := λ A B f m st,
  match m st with
  | (Ok a, st') => f a st'
  | (Err e, st') => (Err e, st')
  end.

Definition raise {A} (e : exn) : M A := λ st, (Err e, st).

Definition lift {A} (r : result A) : M A := λ st, (r, st).

Definition with_heap (h : gmap loc value) (st : state) : state :=
  {| heap := h; cache := cache st; events := events st |}.

(** Read the object a reference points to. *)
Definition load (l : loc) : M value := λ st,
  match heap st !! l with
  | Some c => (Ok c, st)
  | None => (Err ReferenceError, st)
  end.

Definition store (l : loc) (c : value) : M unit := λ st,
  (Ok (), with_heap (<[l := c]> (heap st)) st).

(** A new object holding [c]. *)
Definition alloc (c : value) : M loc := λ st,
  let l := fresh (dom (heap st)) in
  (Ok l, with_heap (<[l := c]> (heap st)) st).

(** The object behind a value: references are followed one step. *)
Definition resolve (v : value) : M value :=
  match v with
  | VRef l => load l
  | _ => mret v
  end.

(** Loops: [for x in xs: acc = body acc x], stopping at an exception. *)
Fixpoint for_each {A B} (body : B → A → M B) (acc : B) (xs : list A) : M B :=
  match xs with
  | [] => mret acc
  | x :: xs' => acc' ← body acc x; for_each body acc' xs'
  end.

(** [next(x for x in xs if cond x)], with the default given to [next]
    or [StopIteration]. *)
Fixpoint next_matching (cond : value → M bool) (xs : list value)
    (default : option value) : M value :=
  match xs with
  | [] =>
      match default with
      | Some d => mret d
      | None => raise StopIteration
      end
  | x :: xs' =>
      b ← cond x;
      if b : bool then mret x else next_matching cond xs' default
  end.

(** ** Python primitives *)

(** [bool(v)] *)
Definition truthy (v : value) : M bool :=
  c ← resolve v;
  mret match c with
       | VNone => false
       | VInt z => bool_decide (z ≠ 0)
       | VStr s => bool_decide (s ≠ "")
       | VList vs => match vs with [] => false | _ => true end
       | VDict kvs => match kvs with [] => false | _ => true end
       | VRef _ => true
       end.

(** [obj[k]] for a string literal [k]. *)
Definition getitem (obj : value) (k : string) : M value :=
  c ← resolve obj;
  match c with
  | VDict kvs =>
      match dict_lookup (KStr k) kvs with
      | Some v => mret v
      | None => raise (KeyError (VStr k))
      end
  | _ => raise TypeError
  end.

(** [obj.get(k, dflt)] for a string literal [k]. *)
Definition dict_get (obj : value) (k : string) (dflt : value) : M value :=
  c ← resolve obj;
  match c with
  | VDict kvs => mret (default dflt (dict_lookup (KStr k) kvs))
  | _ => raise AttributeError
  end.

(** The characters of a string, as one-character strings. *)
Fixpoint chars (s : string) : list value :=
  match s with
  | EmptyString => []
  | String a s' => VStr (String a EmptyString) :: chars s'
  end.

(** [iter(v)]: the items a [for] loop or a comprehension runs over. *)
Definition py_iter (v : value) : M (list value) :=
  c ← resolve v;
  match c with
  | VList vs => mret vs
  | VDict kvs => mret (of_key <$> kvs.*1)
  | VStr s => mret (chars s)
  | _ => raise TypeError
  end.

(** [a == b].  Containers are compared by content, following references;
    [fuel] bounds the nesting that can be descended into. *)
Fixpoint py_eq (fuel : nat) (a b : value) : M bool :=
  a' ← resolve a;
  b' ← resolve b;
  match a', b' with
  | VNone, VNone => mret true
  | VInt x, VInt y => mret (bool_decide (x = y))
  | VStr x, VStr y => mret (bool_decide (x = y))
  | VList xs, VList ys =>
      match fuel with
      | O => raise RuntimeError
      | S n =>
          if bool_decide (length xs = length ys) then
            for_each (λ acc xy, if acc : bool then py_eq n xy.1 xy.2 else mret false)
                     true (zip xs ys)
          else mret false
      end
  | VDict d1, VDict d2 =>
      match fuel with
      | O => raise RuntimeError
      | S n =>
          if bool_decide (length d1 = length d2) then
            for_each (λ acc kv,
                        if acc : bool then
                          match dict_lookup kv.1 d2 with
                          | Some v' => py_eq n kv.2 v'
                          | None => mret false
                          end
                        else mret false)
                     true d1
          else mret false
      end
  | VRef l, VRef l' => mret (bool_decide (l = l'))
  | _, _ => mret false
  end.

(** [x in xs] for a list [xs]. *)
Fixpoint py_in (fuel : nat) (x : value) (xs : list value) : M bool :=
  match xs with
  | [] => mret false
  | y :: xs' =>
      b ← py_eq fuel x y;
      if b : bool then mret true else py_in fuel x xs'
  end.

(** [copy.deepcopy]: every object reached through a reference is copied
    to a new object; [memo] maps the objects already copied to their
    copies, so that sharing and cycles are kept. *)
Abbreviation memo_table := (list (loc * loc)).

Fixpoint memo_lookup (l : loc) (memo : memo_table) : option loc :=
  match memo with
  | [] => None
  | (l0, l') :: memo' => if decide (l = l0) then Some l' else memo_lookup l memo'
  end.

Fixpoint copy_all (copy : memo_table → value → M (value * memo_table))
    (memo : memo_table) (vs : list value) : M (list value * memo_table) :=
  match vs with
  | [] => mret ([], memo)
  | v :: vs' =>
      '(v', memo1) ← copy memo v;
      '(vs'', memo2) ← copy_all copy memo1 vs';
      mret (v' :: vs'', memo2)
  end.

Fixpoint copy_items (copy : memo_table → value → M (value * memo_table))
    (memo : memo_table) (kvs : dict) : M (dict * memo_table) :=
  match kvs with
  | [] => mret ([], memo)
  | (k, v) :: kvs' =>
      '(v', memo1) ← copy memo v;
      '(kvs'', memo2) ← copy_items copy memo1 kvs';
      mret ((k, v') :: kvs'', memo2)
  end.

(** The empty container a copy starts from. *)
Definition empty_like (c : value) : value :=
  match c with
  | VList _ => VList []
  | VDict _ => VDict []
  | _ => c
  end.

Fixpoint deepcopy_memo (fuel : nat) (memo : memo_table) (v : value)
    : M (value * memo_table) :=
  match v with
  | VNone | VInt _ | VStr _ => mret (v, memo)
  | VList vs =>
      match fuel with
      | O => raise RuntimeError
      | S n =>
          '(vs', memo') ← copy_all (deepcopy_memo n) memo vs;
          mret (VList vs', memo')
      end
  | VDict kvs =>
      match fuel with
      | O => raise RuntimeError
      | S n =>
          '(kvs', memo') ← copy_items (deepcopy_memo n) memo kvs;
          mret (VDict kvs', memo')
      end
  | VRef l =>
      match memo_lookup l memo with
      | Some l' => mret (VRef l', memo)
      | None =>
          match fuel with
          | O => raise RuntimeError
          | S n =>
              c ← load l;
              l' ← alloc (empty_like c);
              '(c', memo') ← deepcopy_memo n ((l, l') :: memo) c;
              store l' c';;
              mret (VRef l', memo')
          end
      end
  end.

(** [obj[k] = v] for a string literal [k].  The result is the value the
    variable holds afterwards: the same reference, or the updated inline
    dict. *)
Definition setitem (obj : value) (k : string) (v : value) : M value :=
  match obj with
  | VRef l =>
      c ← load l;
      match c with
      | VDict kvs => store l (VDict (dict_set (KStr k) v kvs));; mret obj
      | _ => raise TypeError
      end
  | VDict kvs => mret (VDict (dict_set (KStr k) v kvs))
  | _ => raise TypeError
  end.

(** [hash(v)] as the dict operations use it. *)
Definition py_hash (v : value) : M key :=
  match to_key v with
  | Some k => mret k
  | None => raise TypeError
  end.

(** [d[k]] for a local dict [d] and a computed key. *)
Definition dict_getitem (d : dict) (k : value) : M value :=
  k' ← py_hash k;
  match dict_lookup k' d with
  | Some v => mret v
  | None => raise (KeyError k)
  end.

(** ['.' + v]: only a string can be appended to a string. *)
Definition str_add (s : string) (v : value) : M string :=
  c ← resolve v;
  match c with
  | VStr s' => mret (s ++ s')
  | _ => raise TypeError
  end.

(** [django.core.cache.cache] *)
Definition cache_get (k : string) : M value := λ st,
  (Ok (default VNone (cache st !! k)),
   {| heap := heap st; cache := cache st;
      events := events st ++ [EvCacheGet k] |}).

Definition cache_set (k : string) (v : value) : M unit := λ st,
  (Ok (),
   {| heap := heap st; cache := <[k := v]> (cache st);
      events := events st ++ [EvCacheSet k v] |}).

(** Hash order: the order in which the members of a set or a dict come
    out when it is iterated. *)
Definition hash_le {A} (hash : A → nat) (a b : A) : Prop :=
  (hash a ≤ hash b)%nat.

Global Instance hash_le_dec {A} (hash : A → nat) a b :
  Decision (hash_le hash a b).
Proof. unfold hash_le. apply _. Defined.

(** ** A sample catalog

    Two programs as the fetch utility hands them out, two program types,
    and a module store with two courses, for the examples that follow the
    theorems. *)

Definition sample_integration : CatalogIntegration :=
  {| enabled := true;
     service_username := "catalog_worker";
     internal_api_url := "https://catalog.example.com/api/v1/";
     CACHE_KEY := "catalog.api.data";
     is_cache_enabled := true |}.

Definition sample_disabled : CatalogIntegration :=
  {| enabled := false;
     service_username := "catalog_worker";
     internal_api_url := "https://catalog.example.com/api/v1/";
     CACHE_KEY := "catalog.api.data";
     is_cache_enabled := true |}.

Definition sample_users : list string := ["staff"; "catalog_worker"].

Definition sample_build_token (user : string) (scopes : list string)
    (expires_in : Z) : result string :=
  Ok ("jwt-for-" ++ user).

Definition sample_course (key : string) : value :=
  VDict [(KStr "course_runs", VList [VDict [(KStr "key", VStr key)]])].

Definition sample_fields (uuid slug type : string) (keys : list string)
    : dict :=
  [(KStr "uuid", VStr uuid);
   (KStr "marketing_slug", VStr slug);
   (KStr "type", VStr type);
   (KStr "courses", VList (sample_course <$> keys))].

Definition sample_program (uuid slug type : string) (keys : list string)
    : value :=
  VDict (sample_fields uuid slug type keys).

Definition sample_type (name : string) : value :=
  VDict [(KStr "name", VStr name); (KStr "logo_image", VNone)].

Definition sample_heap : gmap loc value :=
  {[ 1%positive := sample_program "uuid-1" "data-science" "MicroMasters"
                     ["course-v1:edX+DS101+2017"; "course-v1:edX+DS102+2017"];
     2%positive := sample_program "uuid-2" "writing" "XSeries"
                     ["course-v1:edX+W1+2017"] ]}.

Definition sample_state : state :=
  {| heap := sample_heap; cache := ∅; events := [] |}.

(** The fetch utility: the list of programs, one program by uuid, or the
    program types. *)
Definition sample_api (types : list value) (r : api_request) : result value :=
  if decide (req_resource r = "programs") then
    match req_resource_id r with
    | VNone => Ok (VList [VRef 1%positive; VRef 2%positive])
    | _ => Ok (VRef 1%positive)
    end
  else Ok (VList types).

Definition sample_types : list value :=
  [sample_type "MicroMasters"; sample_type "XSeries"].

Definition sample_from_string (v : value) : result string :=
  match v with
  | VStr s => Ok s
  | _ => Err (External "InvalidKeyError")
  end.

Definition sample_instructor (name organization : string) : value :=
  VDict [(KStr "name", VStr name); (KStr "organization", VStr organization)].

Definition sample_get_course (k : string) : option CourseDescriptor :=
  if decide (k = "course-v1:edX+DS101+2017") then
    Some {| instructor_info :=
              Some (VDict [(KStr "instructors",
                            VList [sample_instructor "Ann" "edX";
                                   sample_instructor "Bob" "edX"])]) |}
  else if decide (k = "course-v1:edX+DS102+2017") then
    Some {| instructor_info :=
              Some (VDict [(KStr "instructors",
                            VList [sample_instructor "Ann" "MITx"])]) |}
  else if decide (k = "course-v1:edX+W1+2017") then
    Some {| instructor_info := None |}
  else None.

(** A token builder that fails, a module store with a broken descriptor,
    and stores with a single program and with a program that has no
    marketing slug. *)
Definition sample_failing_token (user : string) (scopes : list string)
    (expires_in : Z) : result string :=
  Err (External "signing failed").

Definition sample_get_course_broken (k : string) : option CourseDescriptor :=
  if decide (k = "course-v1:edX+DS102+2017") then
    Some {| instructor_info := Some VNone |}
  else sample_get_course k.

Definition sample_state_single : state :=
  {| heap := {[ 1%positive := sample_program "uuid-3" "intro" "XSeries"
                                ["course-v1:edX+DS101+2017"] ]};
     cache := ∅; events := [] |}.

Definition sample_state_no_slug : state :=
  {| heap := {[ 1%positive := VDict [(KStr "uuid", VStr "uuid-1")];
                2%positive := sample_program "uuid-2" "writing" "XSeries"
                                ["course-v1:edX+W1+2017"] ]};
     cache := ∅; events := [] |}.

(** A store with two programs that have no uuid. *)
Definition sample_state_no_uuid : state :=
  {| heap := {[ 1%positive :=
                  VDict [(KStr "courses",
                          VList [sample_course "course-v1:edX+DS101+2017"])];
                2%positive :=
                  VDict [(KStr "uuid", VNone);
                         (KStr "courses",
                          VList [sample_course "course-v1:edX+W1+2017"])] ]};
     cache := ∅; events := [] |}.

(** A store with a program of three course runs: one with instructors,
    one whose descriptor has no [instructor_info], and one that the module
    store does not know. *)
Definition sample_state_gaps : state :=
  {| heap := {[ 1%positive := sample_program "uuid-4" "gaps" "XSeries"
                                ["course-v1:edX+DS101+2017";
                                 "course-v1:edX+W1+2017";
                                 "course-v1:edX+GONE+2017"] ]};
     cache := ∅; events := [] |}.

Definition sample_hash {A} (x : A) : nat := 0.

Definition sample_repr (v : value) : string := "<object>".

(** ** The module *)

Section catalog.
Context {CourseKey : Type} `{Countable CourseKey}.

(** The nesting Python can descend into before it gives up. *)
Variable recursion_limit : nat.

(** [CatalogIntegration.current()] and the user table. *)
Variable catalog_integration : CatalogIntegration.
Variable users : list string.

(** [settings.OAUTH_ID_TOKEN_EXPIRATION] and
    [JwtBuilder(user).build_token(scopes, expires_in)]. *)
Variable OAUTH_ID_TOKEN_EXPIRATION : Z.
Variable build_token : string → list string → Z → result string.

(** The shared fetch-with-cache utility: what it returns for a request. *)
Variable get_edx_api_data : api_request → result value.

(** [CourseKey.from_string] and [modulestore().get_course]. *)
Variable CourseKey_from_string : value → result CourseKey.
Variable get_course : CourseKey → option CourseDescriptor.

(** Iteration over a set and over the values of a dict follows the
    hashes of the members. *)
Variable course_key_hash : CourseKey → nat.
Variable key_hash : key → nat.

(** [repr] of a container. *)
Variable py_repr : value → string.

(** [User.objects.get(username=...)]: [None] is [User.DoesNotExist]. *)
Definition User_objects_get (username : string) : option string :=
  if decide (username ∈ users) then Some username else None.

Definition call_get_edx_api_data (r : api_request) : M value := λ st,
  (get_edx_api_data r,
   {| heap := heap st; cache := cache st; events := events st ++ [EvApi r] |}).

(** [str(c)] for an object [c]. *)
Definition py_str (c : value) : string :=
  match c with
  | VNone => "None"
  | VInt z => pretty z
  | VStr s => s
  | _ => py_repr c
  end.

(** ['{...}'.format(x)] *)
Definition py_format (v : value) : M string :=
  c ← resolve v;
  mret (py_str c).

Definition deepcopy (v : value) : M value :=
  '(v', _) ← deepcopy_memo recursion_limit [] v;
  mret v'.

Definition set_iter (keys : gset CourseKey) : list CourseKey :=
  merge_sort (hash_le course_key_hash) (elements keys).

(** [d.values()] *)
Definition dict_values (d : dict) : list value :=
  (merge_sort (hash_le (key_hash ∘ fst)) d).*2.

Definition create_catalog_api_client (user : string)
    (ci : CatalogIntegration) : M EdxRestApiClient :=
  let scopes := ["email"; "profile"] in
  let expires_in := OAUTH_ID_TOKEN_EXPIRATION in
  jwt ← lift (build_token user scopes expires_in);
  mret {| base_url := internal_api_url ci; jwt := jwt |}.

Definition get_programs (uuid type : value) : M value :=
  if enabled catalog_integration then
    match User_objects_get (service_username catalog_integration) with
    | None => mret (VList [])
    | Some user =>
        api ← create_catalog_api_client user catalog_integration;
        has_type ← truthy type;
        suffix ← (if has_type : bool then str_add "." type else mret "");
        let cache_key := CACHE_KEY catalog_integration ++ ".programs" ++ suffix in
        let querystring : gmap string value :=
          {[ "marketable" := VInt 1; "exclude_utm" := VInt 1 ]} in
        has_uuid ← truthy uuid;
        let querystring :=
          if has_uuid : bool
          then <["use_full_course_serializer" := VInt 1]> querystring
          else querystring in
        has_type ← truthy type;
        let querystring :=
          if has_type : bool then <["type" := type]> querystring
          else querystring in
        call_get_edx_api_data
          {| req_config := catalog_integration;
             req_user := user;
             req_resource := "programs";
             req_resource_id := uuid;
             req_cache_key :=
               if is_cache_enabled catalog_integration
               then Some cache_key else None;
             req_api := api;
             req_querystring := Some querystring |}
    end
  else mret (VList []).

Definition get_program_types : M value :=
  if enabled catalog_integration then
    match User_objects_get (service_username catalog_integration) with
    | None => mret (VList [])
    | Some user =>
        api ← create_catalog_api_client user catalog_integration;
        let cache_key := CACHE_KEY catalog_integration ++ ".program_types" in
        call_get_edx_api_data
          {| req_config := catalog_integration;
             req_user := user;
             req_resource := "program_types";
             req_resource_id := VNone;
             req_cache_key :=
               if is_cache_enabled catalog_integration
               then Some cache_key else None;
             req_api := api;
             req_querystring := None |}
    end
  else mret (VList []).

Definition get_program_type (name : value) : M value :=
  program_types ← get_program_types;
  items ← py_iter program_types;
  next_matching
    (λ program_type,
       n ← getitem program_type "name";
       py_eq recursion_limit n name)
    items None.

Definition get_program_course_run_keys (program : value)
    : M (gset CourseKey) :=
  courses ← getitem program "courses";
  courses ← py_iter courses;
  for_each
    (λ keys course,
       course_runs ← getitem course "course_runs";
       course_runs ← py_iter course_runs;
       for_each
         (λ keys course_run,
            k ← getitem course_run "key";
            course_key ← lift (CourseKey_from_string k);
            mret ({[course_key]} ∪ keys))
         keys course_runs)
    (∅ : gset CourseKey) courses.

(** The dict comprehension
    [{instructor.get('name'): instructor for instructor in instructors}]. *)
Definition instructors_by_name (instructors : list value) : M dict :=
  for_each
    (λ d instructor,
       name ← dict_get instructor "name" VNone;
       k ← py_hash name;
       mret (dict_set k instructor d))
    [] instructors.

(** One round of the loop over the course-run keys. *)
Definition add_course_instructors (program_instructors_dict : dict)
    (course_run_key : CourseKey) : M dict :=
  match get_course course_run_key with
  | Some course_descriptor =>
      let course_instructors :=
        default (VDict []) (instructor_info course_descriptor) in
      instructors ← dict_get course_instructors "instructors" (VList []);
      instructors ← py_iter instructors;
      by_name ← instructors_by_name instructors;
      mret (dict_update program_instructors_dict by_name)
  | None => mret program_instructors_dict
  end.

(** The body of the cache miss: the instructors gathered from the
    module store. *)
Definition collect_program_instructors (program : value) : M value :=
  keys ← get_program_course_run_keys program;
  program_instructors_dict ←
    for_each add_course_instructors [] (set_iter keys);
  mret (VList (dict_values program_instructors_dict)).

Definition _get_program_instructors (program : value) : M value :=
  program_id ← dict_get program "uuid" VNone;
  program_id ← py_format program_id;
  let cache_key := "program.instructors." ++ program_id in
  program_instructors_list ← cache_get cache_key;
  hit ← truthy program_instructors_list;
  if negb hit then
    program_instructors_list ← collect_program_instructors program;
    cache_set cache_key program_instructors_list;;
    mret program_instructors_list
  else mret program_instructors_list.

Definition get_program_with_type_and_instructors (marketing_slug : value)
    : M value :=
  programs ← get_programs VNone VNone;
  items ← py_iter programs;
  program ←
    next_matching
      (λ program,
         slug ← getitem program "marketing_slug";
         py_eq recursion_limit slug marketing_slug)
      items (Some VNone);
  found ← truthy program;
  if found : bool then
    uuid ← getitem program "uuid";
    fully_serialized_program ← get_programs uuid VNone;
    program_with_type_and_instructors ← deepcopy fully_serialized_program;
    type_name ← getitem fully_serialized_program "type";
    program_type ← get_program_type type_name;
    program_with_type_and_instructors ←
      setitem program_with_type_and_instructors "type" program_type;
    instructors ← _get_program_instructors fully_serialized_program;
    program_with_type_and_instructors ←
      setitem program_with_type_and_instructors "instructors" instructors;
    mret program_with_type_and_instructors
  else mret VNone.

(** [{program_type['name']: program_type for program_type in types}] *)
Definition types_by_name (types : list value) : M dict :=
  for_each
    (λ d program_type,
       name ← getitem program_type "name";
       k ← py_hash name;
       mret (dict_set k program_type d))
    [] types.

(** [not include_types or program['type'] in include_types] *)
Definition is_included (include_types : option (list value))
    (program : value) : M bool :=
  match include_types with
  | None | Some [] => mret true
  | Some types =>
      type_name ← getitem program "type";
      py_in recursion_limit type_name types
  end.

(** One round of the loop over the programs. *)
Definition add_program_with_type (include_types : option (list value))
    (program_types : dict) (programs_with_type : list value)
    (program : value) : M (list value) :=
  included ← is_included include_types program;
  if included : bool then
    program_with_type ← deepcopy program;
    type_name ← getitem program "type";
    program_type ← dict_getitem program_types type_name;
    program_with_type ← setitem program_with_type "type" program_type;
    mret ((programs_with_type ++ [program_with_type])%list)
  else mret programs_with_type.

Definition get_programs_with_type (include_types : option (list value))
    : M value :=
  programs ← get_programs VNone VNone;
  nonempty ← truthy programs;
  if nonempty : bool then
    types ← get_program_types;
    types ← py_iter types;
    program_types ← types_by_name types;
    items ← py_iter programs;
    programs_with_type ←
      for_each (add_program_with_type include_types program_types) [] items;
    mret (VList programs_with_type)
  else mret (VList []).

(** A string argument that may be left out. *)
Definition opt_str (o : option string) : value :=
  match o with
  | Some s => VStr s
  | None => VNone
  end.

(** An argument is given when it is there and not empty: the test the
    code makes with [if uuid:] and [if type:]. *)
Definition given (o : option string) : bool :=
  match o with
  | Some s => bool_decide (s ≠ "")
  | None => false
  end.

(** ** Reading the store *)

(** The object a value stands for in a store. *)
Definition resolved (h : gmap loc value) (v : value) : option value :=
  match v with
  | VRef l => h !! l
  | _ => Some v
  end.

(** [obj[k]] as it reads in a store, when [obj] is a dict holding [k]. *)
Definition field (h : gmap loc value) (obj : value) (k : string)
    : option value :=
  match resolved h obj with
  | Some (VDict kvs) => dict_lookup (KStr k) kvs
  | _ => None
  end.

(** The string a field holds, directly or behind a reference. *)
Definition str_field (h : gmap loc value) (obj : value) (k : string)
    : option string :=
  match field h obj k ≫= resolved h with
  | Some (VStr s) => Some s
  | _ => None
  end.

(** [obj[k]] can be read and compared: it is there and stands for an
    object. *)
Definition readable (h : gmap loc value) (obj : value) (k : string) : Prop :=
  is_Some (field h obj k ≫= resolved h).

(** [obj[k] == s] for a string [s], as it reads in a store. *)
Definition field_is (h : gmap loc value) (k s : string) (obj : value) : bool :=
  bool_decide (str_field h obj k = Some s).

(** ** Invariants of computations *)

(** [m] only reads the state. *)
Definition reads {A} (m : M A) : Prop := ∀ st, (m st).2 = st.

(** [m] keeps the invariant [I], whether it returns or raises, and what
    it returns satisfies [Q]. *)
Definition triple {A} (I : state → Prop) (m : M A) (Q : A → Prop) : Prop :=
  ∀ st, I st → I (m st).2 ∧ ∀ a, (m st).1 = Ok a → Q a.

(** Invariants that do not look at the log of calls, or at the cache. *)
Class LogStable (I : state → Prop) : Prop :=
  log_stable : ∀ st es,
    I st → I {| heap := heap st; cache := cache st; events := es |}.

Class CacheStable (I : state → Prop) : Prop :=
  cache_stable : ∀ st c,
    I st → I {| heap := heap st; cache := c; events := events st |}.

(** The objects of [h0] are still there, as they were. *)
Definition framed (h0 : gmap loc value) (st : state) : Prop := h0 ⊆ heap st.

(** Store and cache are as in [st0]. *)
Definition same_data (st0 st : state) : Prop :=
  heap st = heap st0 ∧ cache st = cache st0.

(** ** Data as the catalog service sends it *)

(** [v] holds no reference and nests at most [n] containers. *)
Fixpoint plain_within (n : nat) (v : value) : bool :=
  match v with
  | VNone | VInt _ | VStr _ => true
  | VRef _ => false
  | VList vs =>
      match n with
      | O => false
      | S m => forallb (plain_within m) vs
      end
  | VDict kvs =>
      match n with
      | O => false
      | S m => forallb (λ kv, plain_within m kv.2) kvs
      end
  end.

(** Decoded JSON that [deepcopy] can walk through: the object itself is
    one level, its content has to fit under the rest of the limit. *)
Definition is_json (c : value) : bool :=
  match recursion_limit with
  | O => false
  | S n => plain_within n c
  end.

(** [p] is a program mapping of the store: a reference to a dict of plain
    data whose [type] is the name [tn]. *)
Definition program_at (h : gmap loc value) (p : value) (l : loc) (kvs : dict)
    (tn : string) : Prop :=
  p = VRef l ∧ h !! l = Some (VDict kvs) ∧ is_json (VDict kvs) = true ∧
  dict_lookup (KStr "type") kvs = Some (VStr tn).

Definition is_program (h : gmap loc value) (p : value) : Prop :=
  ∃ l kvs tn, program_at h p l kvs tn.

(** A program type whose [name] can be a dict key. *)
Definition is_program_type (h : gmap loc value) (t : value) : Prop :=
  ∃ k, field h t "name" = Some (of_key k).

(** The filter of [get_programs_with_type] over type names. *)
Definition included (include_types : option (list string))
    (h : gmap loc value) (p : value) : bool :=
  match include_types with
  | None | Some [] => true
  | Some names =>
      match str_field h p "type" with
      | Some tn => bool_decide (tn ∈ names)
      | None => false
      end
  end.

Definition type_filter (include_types : option (list string))
    : option (list value) :=
  match include_types with
  | Some names => Some (VStr <$> names)
  | None => None
  end.

(** The entry of [types] that a dict built by name gives for [tn]: the
    last one of that name. *)
Definition type_named (h : gmap loc value) (types : list value) (tn : string)
    : option value :=
  find (field_is h "name" tn) (reverse types).

(** The type of [p] is among [types]. *)
Definition type_known (h : gmap loc value) (types : list value) (p : value)
    : bool :=
  match str_field h p "type" with
  | Some tn => bool_decide (is_Some (type_named h types tn))
  | None => false
  end.

(** [r] is a new object holding the content of the program [p] with its
    [type] replaced by the program type of that name. *)
Definition enriched_copy (h h' : gmap loc value) (types : list value)
    (p r : value) : Prop :=
  ∃ l kvs tn t l',
    program_at h p l kvs tn ∧ type_named h types tn = Some t ∧
    r = VRef l' ∧ h !! l' = None ∧
    h' !! l' = Some (VDict (dict_set (KStr "type") t kvs)).

(** ** The instructors of a program *)

(** [bool(v)] for a value that is no reference. *)
Definition is_truthy (v : value) : bool :=
  match v with
  | VNone => false
  | VInt z => bool_decide (z ≠ 0)
  | VStr s => bool_decide (s ≠ "")
  | VList vs => match vs with [] => false | _ => true end
  | VDict kvs => match kvs with [] => false | _ => true end
  | VRef _ => true
  end.

(** The cache key of the instructors of [program], as it reads in a
    store. *)
Definition cache_key_of (h : gmap loc value) (program : value)
    : option string :=
  match resolved h program with
  | Some (VDict kvs) =>
      match resolved h (default VNone (dict_lookup (KStr "uuid") kvs)) with
      | Some c => Some ("program.instructors." ++ py_str c)
      | None => None
      end
  | _ => None
  end.

(** The state after [cache.get(k)] and after [cache.set(k, v)]. *)
Definition after_cache_get (k : string) (st : state) : state :=
  {| heap := heap st; cache := cache st;
     events := events st ++ [EvCacheGet k] |}.

Definition after_cache_set (k : string) (v : value) (st : state) : state :=
  {| heap := heap st; cache := <[k := v]> (cache st);
     events := events st ++ [EvCacheSet k v] |}.

(** A course run adds to the instructors: its descriptor is there and has
    an [instructor_info]. *)
Definition contributes (k : CourseKey) : bool :=
  match get_course k with
  | Some descriptor => bool_decide (is_Some (instructor_info descriptor))
  | None => false
  end.

(** The instructors listed for a course run, when its descriptor is well
    formed: [instructor_info], if there, is a dict whose [instructors], if
    there, is a list. *)
Definition course_instructors (k : CourseKey) : option (list value) :=
  match get_course k with
  | None => Some []
  | Some descriptor =>
      match instructor_info descriptor with
      | None => Some []
      | Some (VDict kvs) =>
          match dict_lookup (KStr "instructors") kvs with
          | None => Some []
          | Some (VList instructors) => Some instructors
          | Some _ => None
          end
      | Some _ => None
      end
  end.

(** The key an instructor is filed under: [instructor.get('name')]. *)
Definition instructor_name (instructor : value) : option key :=
  match instructor with
  | VDict kvs => to_key (default VNone (dict_lookup (KStr "name") kvs))
  | _ => None
  end.

Definition has_name (n : key) (instructor : value) : Prop :=
  instructor_name instructor = Some n.

Global Instance has_name_dec n instructor : Decision (has_name n instructor).
Proof. unfold has_name. apply _. Defined.

(** A course run whose instructors can be filed by name. *)
Definition course_ok (k : CourseKey) : Prop :=
  ∃ instructors,
    course_instructors k = Some instructors ∧
    Forall (λ i, is_Some (instructor_name i)) instructors.

(** The instructors of the course runs [keys], in the order the runs are
    gone through. *)
Definition instructor_stream (keys : list CourseKey) : list value :=
  concat ((λ k, default [] (course_instructors k)) <$> keys).

(** The key an instructor is filed under, [None] when it has no usable
    name. *)
Definition name_of (instructor : value) : key :=
  default KNone (instructor_name instructor).

(** The dict comprehension over a list of instructors, and the dict after
    the loop over the course runs, as pure functions. *)
Definition filed_by_name (instructors : list value) : dict :=
  foldl (λ d i, dict_set (name_of i) i d) [] instructors.

Definition gathered (d : dict) (keys : list CourseKey) : dict :=
  foldl (λ d k, dict_update d (filed_by_name (default [] (course_instructors k))))
        d keys.

(** Every entry of a dict of instructors is filed under its own name. *)
Definition filed (d : dict) : Prop :=
  NoDup d.*1 ∧ Forall (λ kv, instructor_name kv.2 = Some kv.1) d.

(** The store is [h]. *)
Definition same_heap (h : gmap loc value) (st : state) : Prop := heap st = h.

(** The state after one call of the fetch utility. *)
Definition after_api_call (r : api_request) (st : state) : state :=
  {| heap := heap st; cache := cache st; events := events st ++ [EvApi r] |}.

(** The request [get_program_types] makes with the client token [jwt]. *)
Definition program_types_request (jwt : string) : api_request :=
  {| req_config := catalog_integration;
     req_user := service_username catalog_integration;
     req_resource := "program_types";
     req_resource_id := VNone;
     req_cache_key :=
       if is_cache_enabled catalog_integration
       then Some (CACHE_KEY catalog_integration ++ ".program_types")
       else None;
     req_api := {| base_url := internal_api_url catalog_integration;
                   jwt := jwt |};
     req_querystring := None |}.

(** ** The course runs of a program, read off its content *)

(** The [key] of a course run. *)
Definition run_key (course_run : value) : option value :=
  match course_run with
  | VDict kvs => dict_lookup (KStr "key") kvs
  | _ => None
  end.

(** The keys of the course runs of a course, in order. *)
Definition course_keys (course : value) : option (list value) :=
  match course with
  | VDict kvs =>
      match dict_lookup (KStr "course_runs") kvs with
      | Some (VList course_runs) => mapM run_key course_runs
      | _ => None
      end
  | _ => None
  end.

(** The keys of all the course runs of a program with content [c], in
    order, repetitions included. *)
Definition program_keys (c : value) : option (list value) :=
  match c with
  | VDict kvs =>
      match dict_lookup (KStr "courses") kvs with
      | Some (VList courses) =>
          match mapM course_keys courses with
          | Some keys => Some (concat keys)
          | None => None
          end
      | _ => None
      end
  | _ => None
  end.

(** [CourseKey.from_string] over a list, stopping at the first key that
    does not parse. *)
Fixpoint parse_all (vs : list value) : result (list CourseKey) :=
  match vs with
  | [] => Ok []
  | v :: vs' =>
      match CourseKey_from_string v with
      | Ok k =>
          match parse_all vs' with
          | Ok ks => Ok (k :: ks)
          | Err e => Err e
          end
      | Err e => Err e
      end
  end.

(** A course run whose descriptor has an [instructor_info] that is there
    but is no mapping ([None], a number, a string or a list). *)
Definition bad_instructor_info (k : CourseKey) : Prop :=
  ∃ descriptor v,
    get_course k = Some descriptor ∧ instructor_info descriptor = Some v ∧
    match v with VDict _ | VRef _ => False | _ => True end.

(** A list of instructors with, of each name, only the last one kept. *)
Fixpoint last_of_each_name (instructors : list value) : list value :=
  match instructors with
  | [] => []
  | i :: rest =>
      if decide (instructor_name i ∈ instructor_name <$> rest)
      then last_of_each_name rest
      else i :: last_of_each_name rest
  end.

(** ** Running computations *)

Lemma run_bind {A B} (m : M A) (f : A → M B) st :
  (m ≫= f) st =
  match m st with
  | (Ok a, st') => f a st'
  | (Err e, st') => (Err e, st')
  end.
Proof. reflexivity. Qed.

Lemma run_bind_ok {A B} (m : M A) (f : A → M B) st a st' :
  m st = (Ok a, st') → (m ≫= f) st = f a st'.
Proof. intros Hm. by rewrite run_bind, Hm. Qed.

Lemma run_bind_err {A B} (m : M A) (f : A → M B) st e st' :
  m st = (Err e, st') → (m ≫= f) st = (Err e, st').
Proof. intros Hm. by rewrite run_bind, Hm. Qed.

Lemma run_bind_assoc {A B C} (m : M A) (f : A → M B) (g : B → M C) st :
  ((m ≫= f) ≫= g) st = (m ≫= λ a, f a ≫= g) st.
Proof. rewrite !run_bind. by destruct (m st) as [[]]. Qed.

Lemma run_ret_bind {A B} (a : A) (f : A → M B) st : (mret a ≫= f) st = f a st.
Proof. done. Qed.

(** Run the first computation of a chain of binds by its equation [H]. *)
Ltac run H :=
  rewrite ?run_bind_assoc;
  first [ rewrite (run_bind_ok _ _ _ _ _ H) | rewrite H ];
  rewrite ?run_ret_bind.

Lemma truthy_opt_str o st : truthy (opt_str o) st = (Ok (given o), st).
Proof. by destruct o. Qed.

(** ** The fetchers: short circuits and the request *)

(** C5.  With the integration disabled, or enabled without a user of the
    configured service username, [get_programs] and [get_program_types]
    return the empty list and leave the whole state as it was: nothing is
    added to the log of calls to the fetch utility and the cache is
    neither read nor written. *)
Theorem fetchers_unavailable (uuid type : value) (st : state) :
  enabled catalog_integration = false ∨
    service_username catalog_integration ∉ users →
  get_programs uuid type st = (Ok (VList []), st) ∧
  get_program_types st = (Ok (VList []), st).
Proof.
  unfold get_programs, get_program_types, User_objects_get.
  intros [Hoff | Hnouser].
  - by rewrite Hoff.
  - destruct (enabled catalog_integration); [|done].
    by rewrite decide_False.
Qed.

Lemma events_app_inv (es : list event) (e : event) : es ≠ (es ++ [e])%list.
Proof.
  intros Heq. apply (f_equal length) in Heq.
  rewrite length_app in Heq. simpl in Heq. lia.
Qed.

(** C6.  Whenever [get_programs(uuid, type)] calls the fetch utility, the
    request is for the resource [programs] with the uuid as resource id;
    the cache key is [<prefix>.programs], followed by [.<type>] when a type
    is given, or no cache key at all when the cache is disabled; and the
    query string holds [marketable=1] and [exclude_utm=1],
    [use_full_course_serializer=1] exactly when a uuid is given,
    [type=<type>] exactly when a type is given, and nothing else. *)
Theorem get_programs_request (uuid type : option string) (st : state)
    (r : api_request) :
  events (get_programs (opt_str uuid) (opt_str type) st).2
    = (events st ++ [EvApi r])%list →
  req_resource r = "programs" ∧
  req_resource_id r = opt_str uuid ∧
  req_cache_key r =
    (if is_cache_enabled catalog_integration
     then Some (CACHE_KEY catalog_integration ++ ".programs" ++
                match type with
                | Some t => if given type then "." ++ t else ""
                | None => ""
                end)
     else None) ∧
  ∃ qs : gmap string value,
    req_querystring r = Some qs ∧
    qs !! "marketable" = Some (VInt 1) ∧
    qs !! "exclude_utm" = Some (VInt 1) ∧
    qs !! "use_full_course_serializer" =
      (if given uuid then Some (VInt 1) else None) ∧
    qs !! "type" = (if given type then Some (opt_str type) else None) ∧
    ∀ k, k ∉ ["marketable"; "exclude_utm"; "use_full_course_serializer"; "type"] →
         qs !! k = None.
Proof.
  unfold get_programs, User_objects_get, create_catalog_api_client.
  destruct (enabled catalog_integration);
    [|intros Hev; by apply events_app_inv in Hev].
  case_decide; [|intros Hev; by apply events_app_inv in Hev].
  rewrite !run_bind. unfold lift at 1.
  destruct (build_token _ _ _) as [token|e]; simpl;
    [|intros Hev; by apply events_app_inv in Hev].
  rewrite (run_bind_ok _ _ _ _ _ (truthy_opt_str _ _)).
  assert (Hsuffix : ∀ st0,
    (if given type then str_add "." (opt_str type) else mret "") st0
    = (Ok match type with
          | Some t => if given type then "." ++ t else ""
          | None => ""
          end, st0)).
  { intros st0. destruct type as [t|]; simpl; [|done]. by case_bool_decide. }
  rewrite (run_bind_ok _ _ _ _ _ (Hsuffix _)).
  rewrite !(run_bind_ok _ _ _ _ _ (truthy_opt_str _ _)). simpl.
  intros Hev. apply app_inj_tail in Hev as [_ Hr].
  injection Hr as <-. simpl.
  split_and!; [done..|].
  eexists. split; [done|].
  split_and!.
  - destruct (given uuid), (given type); by simplify_map_eq.
  - destruct (given uuid), (given type); by simplify_map_eq.
  - destruct (given uuid), (given type); by simplify_map_eq.
  - destruct (given uuid), (given type); by simplify_map_eq.
  - intros k Hk.
    rewrite !not_elem_of_cons in Hk. destruct Hk as (?&?&?&?&_).
    destruct (given uuid), (given type); by simplify_map_eq.
Qed.

(** ** Primitives on a given store *)

Lemma resolve_resolved v c st :
  resolved (heap st) v = Some c → resolve v st = (Ok c, st).
Proof.
  destruct v; simpl; try (intros; by simplify_eq).
  unfold load. by intros ->.
Qed.

Lemma getitem_field obj k v st :
  field (heap st) obj k = Some v → getitem obj k st = (Ok v, st).
Proof.
  unfold field, getitem. intros Hf.
  destruct (resolved (heap st) obj) as [c|] eqn:Hc; [|done].
  rewrite (run_bind_ok _ _ _ _ _ (resolve_resolved _ _ _ Hc)).
  destruct c; try done. by rewrite Hf.
Qed.

Lemma py_eq_str fuel a n c st :
  resolved (heap st) a = Some c →
  py_eq fuel a (VStr n) st =
    (Ok match c with VStr s => bool_decide (s = n) | _ => false end, st).
Proof.
  intros Hc. destruct fuel; simpl;
    rewrite (run_bind_ok _ _ _ _ _ (resolve_resolved _ _ _ Hc));
    by destruct c.
Qed.

Lemma next_matching_find cond (p : value → bool) xs dflt st :
  Forall (λ x, cond x st = (Ok (p x), st)) xs →
  next_matching cond xs dflt st =
    (match find p xs with
     | Some x => Ok x
     | None => match dflt with Some d => Ok d | None => Err StopIteration end
     end, st).
Proof.
  induction 1 as [|x xs Hx _ IH]; simpl.
  - by destruct dflt.
  - rewrite (run_bind_ok _ _ _ _ _ Hx). by destruct (p x).
Qed.

(** ** Rules for invariants *)

Lemma reads_ret {A} (a : A) : reads (mret a).
Proof. done. Qed.

Lemma reads_raise {A} e : reads (@raise A e).
Proof. done. Qed.

Lemma reads_lift {A} (r : result A) : reads (lift r).
Proof. done. Qed.

Lemma reads_bind {A B} (m : M A) (f : A → M B) :
  reads m → (∀ a, reads (f a)) → reads (m ≫= f).
Proof.
  intros Hm Hf st. rewrite run_bind. specialize (Hm st).
  destruct (m st) as [[a|e] st']; simpl in *; subst; [apply Hf|done].
Qed.

Lemma reads_load l : reads (load l).
Proof. intros st. unfold load. by destruct (_ !! _). Qed.

Lemma reads_resolve v : reads (resolve v).
Proof. destruct v; try apply reads_ret. apply reads_load. Qed.

Lemma reads_truthy v : reads (truthy v).
Proof. apply reads_bind; [apply reads_resolve|intros; apply reads_ret]. Qed.

Lemma reads_getitem obj k : reads (getitem obj k).
Proof.
  apply reads_bind; [apply reads_resolve|].
  intros []; try apply reads_raise.
  destruct (dict_lookup _ _); [apply reads_ret|apply reads_raise].
Qed.

Lemma reads_dict_get obj k d : reads (dict_get obj k d).
Proof.
  apply reads_bind; [apply reads_resolve|].
  intros []; try apply reads_raise. apply reads_ret.
Qed.

Lemma reads_py_iter v : reads (py_iter v).
Proof.
  apply reads_bind; [apply reads_resolve|].
  intros []; try apply reads_raise; apply reads_ret.
Qed.

Lemma reads_for_each {A B} (body : B → A → M B) acc xs :
  (∀ acc x, reads (body acc x)) → reads (for_each body acc xs).
Proof.
  intros Hbody. revert acc.
  induction xs as [|x xs IH]; intros acc; simpl; [apply reads_ret|].
  apply reads_bind; [apply Hbody|apply IH].
Qed.

Lemma reads_next_matching cond xs dflt :
  (∀ x, reads (cond x)) → reads (next_matching cond xs dflt).
Proof.
  intros Hcond. induction xs as [|x xs IH]; simpl.
  - destruct dflt; [apply reads_ret|apply reads_raise].
  - apply reads_bind; [apply Hcond|]. intros []; [apply reads_ret|apply IH].
Qed.

Lemma reads_py_eq fuel a b : reads (py_eq fuel a b).
Proof.
  revert a b. induction fuel as [|n IH]; intros a b; simpl.
  - apply reads_bind; [apply reads_resolve|]. intros a'.
    apply reads_bind; [apply reads_resolve|]. intros b'.
    destruct a', b'; try apply reads_ret; apply reads_raise.
  - apply reads_bind; [apply reads_resolve|]. intros a'.
    apply reads_bind; [apply reads_resolve|]. intros b'.
    destruct a', b'; try apply reads_ret.
    + case_bool_decide; [|apply reads_ret].
      apply reads_for_each. intros [] ?; [apply IH|apply reads_ret].
    + case_bool_decide; [|apply reads_ret].
      apply reads_for_each. intros [] ?; [|apply reads_ret].
      destruct (dict_lookup _ _); [apply IH|apply reads_ret].
Qed.

Lemma reads_py_in fuel x xs : reads (py_in fuel x xs).
Proof.
  induction xs as [|y xs IH]; simpl; [apply reads_ret|].
  apply reads_bind; [apply reads_py_eq|]. intros []; [apply reads_ret|apply IH].
Qed.

Lemma reads_py_hash v : reads (py_hash v).
Proof. unfold py_hash. destruct (to_key v); [apply reads_ret|apply reads_raise]. Qed.

Lemma reads_dict_getitem d k : reads (dict_getitem d k).
Proof.
  apply reads_bind; [apply reads_py_hash|]. intros k'.
  destruct (dict_lookup _ _); [apply reads_ret|apply reads_raise].
Qed.

Lemma reads_str_add s v : reads (str_add s v).
Proof.
  apply reads_bind; [apply reads_resolve|].
  intros []; try apply reads_raise. apply reads_ret.
Qed.

Lemma triple_reads {A} I (m : M A) : reads m → triple I m (λ _, True).
Proof. intros Hm st HI. by rewrite Hm. Qed.

Lemma triple_ret {A} I (a : A) (Q : A → Prop) : Q a → triple I (mret a) Q.
Proof. intros HQ st HI. split; [done|]. intros a' [= <-]. done. Qed.

Lemma triple_raise {A} I e (Q : A → Prop) : triple I (raise e) Q.
Proof. intros st HI. by split. Qed.

Lemma triple_bind {A B} I (m : M A) (f : A → M B) Q R :
  triple I m Q → (∀ a, Q a → triple I (f a) R) → triple I (m ≫= f) R.
Proof.
  intros Hm Hf st HI. rewrite run_bind.
  destruct (Hm st HI) as [HI' HQ].
  destruct (m st) as [[a|e] st']; simpl in *; [|by split].
  by apply Hf; [apply HQ|].
Qed.

Lemma triple_weaken {A} I (m : M A) (Q Q' : A → Prop) :
  triple I m Q → (∀ a, Q a → Q' a) → triple I m Q'.
Proof.
  intros Hm HQ st HI. destruct (Hm st HI) as [HI' Ha].
  split; [done|]. intros a Hr. by apply HQ, Ha.
Qed.

Lemma triple_for_each {A B} I (body : B → A → M B) (P : B → Prop) acc xs :
  (∀ acc x, P acc → triple I (body acc x) P) →
  P acc → triple I (for_each body acc xs) P.
Proof.
  intros Hbody. revert acc.
  induction xs as [|x xs IH]; intros acc Hacc; simpl.
  - by apply triple_ret.
  - eapply triple_bind; [by apply Hbody|]. intros acc' Hacc'. by apply IH.
Qed.

Global Instance framed_log_stable h0 : LogStable (framed h0).
Proof. by intros st es. Qed.

Global Instance framed_cache_stable h0 : CacheStable (framed h0).
Proof. by intros st c. Qed.

Global Instance same_data_log_stable st0 : LogStable (same_data st0).
Proof. by intros st es. Qed.

Lemma triple_cache_get I `{!LogStable I} k : triple I (cache_get k) (λ _, True).
Proof. intros st HI. split; [|done]. by apply log_stable. Qed.

Lemma triple_cache_set I `{!LogStable I, !CacheStable I} k v :
  triple I (cache_set k v) (λ _, True).
Proof.
  intros st HI. split; [|done]. simpl.
  by apply (log_stable (I := I) {| heap := heap st; cache := _; events := events st |}),
           cache_stable.
Qed.

Lemma triple_call_api I `{!LogStable I} r :
  triple I (call_get_edx_api_data r) (λ _, True).
Proof. intros st HI. split; [|done]. by apply log_stable. Qed.

Create HintDb reads discriminated.
#[local] Hint Resolve reads_ret reads_raise reads_lift reads_load reads_resolve
  reads_truthy reads_getitem reads_dict_get reads_py_iter reads_py_eq
  reads_py_in reads_py_hash reads_dict_getitem reads_str_add : reads.

(** Work through a computation made of reads, logged calls and binds. *)
Ltac triple_step :=
  lazymatch goal with
  | |- triple _ (mbind _ _) _ => eapply triple_bind; [|intros ? _]
  | |- triple _ (raise _) _ => apply triple_raise
  | |- triple _ (mret _) _ => apply triple_reads, reads_ret
  | |- triple _ (cache_get _) _ => apply triple_cache_get; apply _
  | |- triple _ (cache_set _ _) _ => apply triple_cache_set; apply _
  | |- triple _ (call_get_edx_api_data _) _ => apply triple_call_api; apply _
  | |- triple _ (match ?x with _ => _ end) _ => destruct x
  | |- triple _ (let _ := _ in _) _ => cbv zeta
  | |- triple _ _ _ => apply triple_reads; solve [eauto with reads]
  end.

Ltac triple_go := repeat triple_step.

Lemma triple_create_client I user ci :
  triple I (create_catalog_api_client user ci) (λ _, True).
Proof. unfold create_catalog_api_client. triple_go. Qed.

Lemma triple_get_programs I `{!LogStable I} uuid type :
  triple I (get_programs uuid type) (λ _, True).
Proof.
  unfold get_programs. triple_go. apply triple_create_client.
Qed.

Lemma triple_get_program_types I `{!LogStable I} :
  triple I get_program_types (λ _, True).
Proof.
  unfold get_program_types. triple_go. apply triple_create_client.
Qed.

Lemma triple_get_program_type I `{!LogStable I} name :
  triple I (get_program_type name) (λ _, True).
Proof.
  unfold get_program_type. triple_go; [by apply triple_get_program_types|].
  apply triple_reads, reads_next_matching. intros. eauto 10 using reads_bind with reads.
Qed.

(** ** Copies and the objects that were there before *)

Lemma triple_alloc h0 c : triple (framed h0) (alloc c) (λ l, h0 !! l = None).
Proof.
  intros st Hfr. unfold framed in *. simpl.
  assert (Hfresh : heap st !! fresh (dom (heap st)) = None).
  { apply not_elem_of_dom, is_fresh. }
  split.
  - by apply insert_subseteq_r; [eapply lookup_weaken_None|].
  - intros l [= <-]. by eapply lookup_weaken_None.
Qed.

Lemma triple_store h0 l c :
  h0 !! l = None → triple (framed h0) (store l c) (λ _, True).
Proof.
  intros Hl st Hfr. split; [|done]. unfold framed in *. simpl.
  by apply insert_subseteq_r.
Qed.

Lemma triple_copy_all I copy memo vs :
  (∀ memo v, triple I (copy memo v) (λ _, True)) →
  triple I (copy_all copy memo vs) (λ _, True).
Proof.
  intros Hcopy. revert memo.
  induction vs as [|v vs IH]; intros memo; simpl; [by apply triple_ret|].
  eapply triple_bind; [apply Hcopy|]. intros [v' memo1] _.
  eapply triple_bind; [apply IH|]. intros [vs' memo2] _. by apply triple_ret.
Qed.

Lemma triple_copy_items I copy memo kvs :
  (∀ memo v, triple I (copy memo v) (λ _, True)) →
  triple I (copy_items copy memo kvs) (λ _, True).
Proof.
  intros Hcopy. revert memo.
  induction kvs as [|[k v] kvs IH]; intros memo; simpl; [by apply triple_ret|].
  eapply triple_bind; [apply Hcopy|]. intros [v' memo1] _.
  eapply triple_bind; [apply IH|]. intros [vs' memo2] _. by apply triple_ret.
Qed.

Lemma triple_deepcopy_memo h0 fuel memo v :
  triple (framed h0) (deepcopy_memo fuel memo v) (λ _, True).
Proof.
  revert memo v. induction fuel as [|n IH]; intros memo v.
  - destruct v; simpl; try (by apply triple_ret); try apply triple_raise.
    destruct (memo_lookup _ _); [by apply triple_ret|apply triple_raise].
  - destruct v; simpl; try (by apply triple_ret).
    + eapply triple_bind; [by apply triple_copy_all|].
      intros [] _. by apply triple_ret.
    + eapply triple_bind; [by apply triple_copy_items|].
      intros [] _. by apply triple_ret.
    + destruct (memo_lookup _ _); [by apply triple_ret|].
      eapply triple_bind; [apply triple_reads, reads_load|]. intros c _.
      eapply triple_bind; [apply triple_alloc|]. intros l' Hl'.
      eapply triple_bind; [apply IH|]. intros [c' memo'] _.
      eapply triple_bind; [by apply triple_store|]. intros _ _.
      by apply triple_ret.
Qed.

(** A reference that [deepcopy] returns is to an object that was not
    there before. *)
Lemma triple_deepcopy h0 v :
  triple (framed h0) (deepcopy v) (λ v', ∀ l', v' = VRef l' → h0 !! l' = None).
Proof.
  unfold deepcopy.
  eapply triple_bind with
    (Q := λ r : value * memo_table, ∀ l', r.1 = VRef l' → h0 !! l' = None).
  2:{ intros [v' memo'] Hv'. by apply triple_ret. }
  destruct recursion_limit as [|n], v; simpl;
    try (apply triple_ret; by intros); try apply triple_raise.
  - eapply triple_bind; [by apply triple_copy_all, triple_deepcopy_memo|].
    intros [] _. apply triple_ret. by intros.
  - eapply triple_bind; [by apply triple_copy_items, triple_deepcopy_memo|].
    intros [] _. apply triple_ret. by intros.
  - eapply triple_bind; [apply triple_reads, reads_load|]. intros c _.
    eapply triple_bind; [apply triple_alloc|]. intros l' Hl'.
    eapply triple_bind; [apply triple_deepcopy_memo|]. intros [c' memo'] _.
    eapply triple_bind; [by apply triple_store|]. intros _ _.
    apply triple_ret. by intros ? [= <-].
Qed.

Lemma triple_setitem h0 obj k v :
  (∀ l, obj = VRef l → h0 !! l = None) →
  triple (framed h0) (setitem obj k v) (λ obj', ∀ l, obj' = VRef l → h0 !! l = None).
Proof.
  intros Hobj. destruct obj; simpl; try apply triple_raise.
  - apply triple_ret. by intros.
  - eapply triple_bind; [apply triple_reads, reads_load|]. intros c _.
    destruct c; try apply triple_raise.
    eapply triple_bind; [by apply triple_store, Hobj|]. intros _ _.
    by apply triple_ret.
Qed.

Lemma reads_get_program_course_run_keys program :
  reads (get_program_course_run_keys program).
Proof.
  unfold get_program_course_run_keys.
  apply reads_bind; [apply reads_getitem|]. intros courses.
  apply reads_bind; [apply reads_py_iter|]. intros cs.
  apply reads_for_each. intros keys course.
  apply reads_bind; [apply reads_getitem|]. intros runs.
  apply reads_bind; [apply reads_py_iter|]. intros rs.
  apply reads_for_each. intros keys' run.
  apply reads_bind; [apply reads_getitem|]. intros k.
  apply reads_bind; [apply reads_lift|]. intros ck. apply reads_ret.
Qed.

Lemma reads_instructors_by_name instructors :
  reads (instructors_by_name instructors).
Proof.
  apply reads_for_each. intros d i.
  apply reads_bind; [apply reads_dict_get|]. intros name.
  apply reads_bind; [apply reads_py_hash|]. intros k. apply reads_ret.
Qed.

Lemma reads_add_course_instructors d key :
  reads (add_course_instructors d key).
Proof.
  unfold add_course_instructors. destruct (get_course key); [|apply reads_ret].
  apply reads_bind; [apply reads_dict_get|]. intros ins.
  apply reads_bind; [apply reads_py_iter|]. intros items.
  apply reads_bind; [apply reads_instructors_by_name|]. intros. apply reads_ret.
Qed.

Lemma reads_py_format v : reads (py_format v).
Proof. apply reads_bind; [apply reads_resolve|]. intros. apply reads_ret. Qed.

#[local] Hint Resolve reads_get_program_course_run_keys
  reads_add_course_instructors reads_py_format : reads.

Lemma reads_collect_program_instructors program :
  reads (collect_program_instructors program).
Proof.
  apply reads_bind; [apply reads_get_program_course_run_keys|]. intros keys.
  apply reads_bind; [|intros; apply reads_ret].
  apply reads_for_each. intros. apply reads_add_course_instructors.
Qed.

#[local] Hint Resolve reads_collect_program_instructors : reads.

Lemma triple_get_program_instructors I `{!LogStable I, !CacheStable I} program :
  triple I (_get_program_instructors program) (λ _, True).
Proof. unfold _get_program_instructors. triple_go. Qed.

(** The enrichment composers keep every object that was in the store, and
    the references they return are to new objects. *)
Lemma triple_get_programs_with_type h0 include_types :
  triple (framed h0) (get_programs_with_type include_types)
    (λ r, ∀ rs l, r = VList rs → VRef l ∈ rs → h0 !! l = None).
Proof.
  unfold get_programs_with_type.
  eapply triple_bind; [apply triple_get_programs; apply _|]. intros programs _.
  eapply triple_bind; [apply triple_reads, reads_truthy|]. intros [] _.
  2:{ apply triple_ret. intros rs l [= <-] Hin. by apply elem_of_nil in Hin. }
  eapply triple_bind; [apply triple_get_program_types; apply _|]. intros types _.
  eapply triple_bind; [apply triple_reads, reads_py_iter|]. intros ts _.
  eapply triple_bind.
  { apply triple_reads, reads_for_each. intros.
    eauto 10 using reads_bind with reads. }
  intros program_types _.
  eapply triple_bind; [apply triple_reads, reads_py_iter|]. intros items _.
  eapply triple_bind.
  { apply triple_for_each with (P := λ acc, ∀ l, VRef l ∈ acc → h0 !! l = None).
    - intros acc program Hacc. unfold add_program_with_type.
      eapply triple_bind.
      { apply triple_reads. unfold is_included.
        destruct include_types as [[|]|]; eauto 10 using reads_bind with reads. }
      intros [] _; [|by apply triple_ret].
      eapply triple_bind; [apply triple_deepcopy|]. intros copy Hcopy.
      eapply triple_bind; [apply triple_reads, reads_getitem|]. intros tn _.
      eapply triple_bind; [apply triple_reads, reads_dict_getitem|]. intros t _.
      eapply triple_bind; [by apply triple_setitem|]. intros copy' Hcopy'.
      apply triple_ret. intros l [Hl|Hl]%elem_of_app; [by apply Hacc|].
      apply list_elem_of_singleton in Hl. by apply Hcopy'.
    - intros l Hl. by apply elem_of_nil in Hl. }
  intros rs Hrs. apply triple_ret. intros ? l [= <-]. apply Hrs.
Qed.

Lemma triple_get_program_with_type_and_instructors h0 marketing_slug :
  triple (framed h0) (get_program_with_type_and_instructors marketing_slug)
    (λ r, ∀ l, r = VRef l → h0 !! l = None).
Proof.
  unfold get_program_with_type_and_instructors.
  eapply triple_bind; [apply triple_get_programs; apply _|]. intros programs _.
  eapply triple_bind; [apply triple_reads, reads_py_iter|]. intros items _.
  eapply triple_bind.
  { apply triple_reads, reads_next_matching. intros.
    eauto 10 using reads_bind with reads. }
  intros program _.
  eapply triple_bind; [apply triple_reads, reads_truthy|].
  intros [] _; [|by apply triple_ret].
  eapply triple_bind; [apply triple_reads, reads_getitem|]. intros uuid _.
  eapply triple_bind; [apply triple_get_programs; apply _|]. intros fsp _.
  eapply triple_bind; [apply triple_deepcopy|]. intros copy Hcopy.
  eapply triple_bind; [apply triple_reads, reads_getitem|]. intros tn _.
  eapply triple_bind; [apply triple_get_program_type; apply _|]. intros t _.
  eapply triple_bind; [by apply triple_setitem|]. intros copy1 Hcopy1.
  eapply triple_bind; [apply triple_get_program_instructors; apply _|]. intros ins _.
  eapply triple_bind; [by apply triple_setitem|]. intros copy2 Hcopy2.
  by apply triple_ret.
Qed.

(** C2.  Both enrichment composers leave every object that was in the
    store before the call exactly as it was, whether they return or raise:
    a program mapping handed out by [get_programs()] (or by the re-fetch by
    uuid) reads the same in every field afterwards, so its [type] is still
    the type name and it still has no [instructors] key.  The references
    returned are all to objects made during the call. *)
Theorem enrichment_keeps_originals (include_types : option (list value))
    (marketing_slug : value) (st : state) (program : loc) (c : value) :
  heap st !! program = Some c →
  let run1 := get_programs_with_type include_types st in
  let run2 := get_program_with_type_and_instructors marketing_slug st in
  (heap run1.2 !! program = Some c ∧ heap run2.2 !! program = Some c) ∧
  (∀ k, field (heap run1.2) (VRef program) k = field (heap st) (VRef program) k ∧
        field (heap run2.2) (VRef program) k = field (heap st) (VRef program) k) ∧
  (∀ rs, run1.1 = Ok (VList rs) → VRef program ∉ rs) ∧
  run2.1 ≠ Ok (VRef program).
Proof.
  intros Hprogram run1 run2.
  destruct (triple_get_programs_with_type (heap st) include_types st)
    as [Hfr1 Hnew1]; [by unfold framed|].
  destruct (triple_get_program_with_type_and_instructors (heap st)
              marketing_slug st) as [Hfr2 Hnew2]; [by unfold framed|].
  fold run1 in Hfr1, Hnew1. fold run2 in Hfr2, Hnew2.
  assert (H1 : heap run1.2 !! program = Some c)
    by exact (lookup_weaken _ _ _ _ Hprogram Hfr1).
  assert (H2 : heap run2.2 !! program = Some c)
    by exact (lookup_weaken _ _ _ _ Hprogram Hfr2).
  split_and!; try done.
  - intros k. unfold field. simpl. by rewrite H1, H2, Hprogram.
  - intros rs Hrs Hin. specialize (Hnew1 _ Hrs rs program eq_refl Hin). congruence.
  - intros Hr. specialize (Hnew2 _ Hr program eq_refl). congruence.
Qed.

Lemma same_data_run {A} (m : M A) st :
  triple (same_data st) m (λ _, True) →
  heap (m st).2 = heap st ∧ cache (m st).2 = cache st.
Proof. intros Hm. by destruct (Hm st). Qed.

Lemma py_eq_field_is fuel h k n obj v st :
  heap st = h →
  field h obj k = Some v →
  readable h obj k →
  py_eq fuel v (VStr n) st = (Ok (field_is h k n obj), st).
Proof.
  intros <- Hv [c Hc]. unfold field_is, str_field.
  rewrite Hv in Hc |- *. simpl in *.
  rewrite (py_eq_str _ _ _ c) by done. rewrite Hc. f_equal. f_equal.
  destruct c; try by rewrite bool_decide_eq_false_2.
  apply bool_decide_ext. split; [by intros ->|by intros [= ->]].
Qed.

(** C7.  [get_program_type(n)] returns the first entry of the list
    returned by [get_program_types()] whose name is [n]; when no entry has
    that name, and so when the list is empty, it raises [StopIteration],
    which nothing in the function catches. *)
Theorem get_program_type_first_match (n : string) (st st1 : state)
    (ts : list value) :
  get_program_types st = (Ok (VList ts), st1) →
  Forall (λ t, readable (heap st) t "name") ts →
  get_program_type (VStr n) st =
    (match find (field_is (heap st) "name" n) ts with
     | Some t => Ok t
     | None => Err StopIteration
     end, st1).
Proof.
  intros Hrun Hts. unfold get_program_type.
  rewrite (run_bind_ok _ _ _ _ _ Hrun). simpl.
  destruct (same_data_run get_program_types st) as [Hheap _];
    [apply triple_get_program_types; apply _|].
  rewrite Hrun in Hheap. simpl in Hheap.
  rewrite run_bind. simpl.
  apply (next_matching_find _ (field_is (heap st) "name" n)).
  eapply Forall_impl; [exact Hts|]. intros t Hread. simpl.
  destruct Hread as [c Hc].
  destruct (field (heap st) t "name") as [v|] eqn:Hv; [|done].
  rewrite (run_bind_ok _ _ _ _ _ (getitem_field t "name" v st1
             ltac:(by rewrite Hheap))).
  apply py_eq_field_is with (obj := t) (k := "name"); [done..|].
  exists c. by rewrite Hv.
Qed.

(** ** Dicts *)

Lemma dict_lookup_set_eq k v d : dict_lookup k (dict_set k v d) = Some v.
Proof.
  induction d as [|[k' v'] d IH]; simpl.
  - by rewrite decide_True.
  - destruct (decide (k = k')) as [->|Hne]; simpl.
    + by rewrite decide_True.
    + by rewrite decide_False.
Qed.

Lemma dict_lookup_set_ne k k' v d :
  k ≠ k' → dict_lookup k (dict_set k' v d) = dict_lookup k d.
Proof.
  intros Hne. induction d as [|[k0 v0] d IH]; simpl.
  - by rewrite decide_False.
  - destruct (decide (k' = k0)) as [->|Hne0]; simpl.
    + by rewrite !decide_False.
    + destruct (decide (k = k0)); [done|apply IH].
Qed.

Lemma dict_lookup_set k k' v d :
  dict_lookup k (dict_set k' v d) =
    if decide (k = k') then Some v else dict_lookup k d.
Proof.
  case_decide as Hk; [subst; apply dict_lookup_set_eq|by apply dict_lookup_set_ne].
Qed.

Lemma find_snoc {A} (p : A → bool) xs x :
  find p (xs ++ [x]) =
    match find p xs with
    | Some y => Some y
    | None => if p x then Some x else None
    end.
Proof. induction xs as [|y xs IH]; simpl; [done|]. by destruct (p y). Qed.

(** ** Copies of plain data *)

Lemma copy_all_plain copy memo vs st :
  Forall (λ v, ∀ memo st, copy memo v st = (Ok (v, memo), st)) vs →
  copy_all copy memo vs st = (Ok (vs, memo), st).
Proof.
  induction 1 as [|v vs Hv _ IH]; simpl; [done|].
  rewrite (run_bind_ok _ _ _ _ _ (Hv _ _)). simpl.
  by rewrite (run_bind_ok _ _ _ _ _ IH).
Qed.

Lemma copy_items_plain copy memo kvs st :
  Forall (λ kv, ∀ memo st, copy memo kv.2 st = (Ok (kv.2, memo), st)) kvs →
  copy_items copy memo kvs st = (Ok (kvs, memo), st).
Proof.
  induction 1 as [|[k v] kvs Hv _ IH]; simpl; [done|].
  rewrite (run_bind_ok _ _ _ _ _ (Hv _ _)). simpl.
  by rewrite (run_bind_ok _ _ _ _ _ IH).
Qed.

Lemma deepcopy_memo_plain n memo v st :
  plain_within n v = true →
  deepcopy_memo n memo v st = (Ok (v, memo), st).
Proof.
  revert memo v st. induction n as [|n IH]; intros memo v st Hv.
  - by destruct v.
  - destruct v; simpl in *; try done.
    + assert (Hvs : copy_all (deepcopy_memo n) memo vs st = (Ok (vs, memo), st)).
      { apply copy_all_plain, Forall_forall. intros v Hin memo' st'. apply IH.
        rewrite forallb_forall in Hv. by apply Hv, list_elem_of_In. }
      by rewrite (run_bind_ok _ _ _ _ _ Hvs).
    + assert (Hkvs : copy_items (deepcopy_memo n) memo kvs st
                     = (Ok (kvs, memo), st)).
      { apply copy_items_plain, Forall_forall. intros kv Hin memo' st'. apply IH.
        rewrite forallb_forall in Hv. by apply Hv, list_elem_of_In. }
      by rewrite (run_bind_ok _ _ _ _ _ Hkvs).
Qed.

(** The copy of an object of plain data is one new object with the same
    content. *)
Lemma deepcopy_json l c st :
  heap st !! l = Some c →
  is_json c = true →
  deepcopy (VRef l) st =
    (Ok (VRef (fresh (dom (heap st)))),
     with_heap (<[fresh (dom (heap st)) := c]> (heap st)) st).
Proof.
  unfold is_json, deepcopy. intros Hl Hc.
  destruct recursion_limit as [|n]; [done|].
  rewrite run_bind. simpl. rewrite !run_bind. unfold load at 1. rewrite Hl.
  unfold alloc at 1. cbv zeta.
  unfold mbind, M_bind. rewrite deepcopy_memo_plain by done.
  unfold store, with_heap. simpl. by rewrite insert_insert_eq.
Qed.

(** ** The name-to-type dict and the type filter *)

Lemma resolved_of_key h k : resolved h (of_key k) = Some (of_key k).
Proof. by destruct k. Qed.

Lemma field_is_of_key h t k n :
  field h t "name" = Some (of_key k) →
  field_is h "name" n t = bool_decide (k = KStr n).
Proof.
  intros Hf. unfold field_is, str_field. rewrite Hf. simpl.
  rewrite resolved_of_key. apply bool_decide_ext.
  destruct k; (split; [intros [= ?]|intros [= ?]]); by simplify_eq.
Qed.

Lemma py_hash_of_key k st : py_hash (of_key k) st = (Ok k, st).
Proof. unfold py_hash. by rewrite to_key_of_key. Qed.

Lemma type_named_cons h t ts tn :
  type_named h (t :: ts) tn =
    match type_named h ts tn with
    | Some t' => Some t'
    | None => if field_is h "name" tn t then Some t else None
    end.
Proof. unfold type_named. by rewrite reverse_cons, find_snoc. Qed.

Lemma types_by_name_from d0 ts st :
  Forall (is_program_type (heap st)) ts →
  ∃ d,
    for_each
      (λ d program_type,
         name ← getitem program_type "name";
         k ← py_hash name;
         mret (dict_set k program_type d))
      d0 ts st = (Ok d, st) ∧
    ∀ tn, dict_lookup (KStr tn) d =
            match type_named (heap st) ts tn with
            | Some t => Some t
            | None => dict_lookup (KStr tn) d0
            end.
Proof.
  intros Hts. revert d0.
  induction Hts as [|t ts [k Hk] _ IH]; intros d0; simpl.
  - by exists d0.
  - run (getitem_field _ _ _ _ Hk). run (py_hash_of_key k st).
    destruct (IH (dict_set k t d0)) as (d & -> & Hd).
    exists d. split; [done|]. intros tn.
    rewrite Hd, type_named_cons, (field_is_of_key _ _ k) by done.
    destruct (type_named (heap st) ts tn); [done|].
    rewrite dict_lookup_set.
    case_decide as Hdec; case_bool_decide as Hk'; simplify_eq; try done.
Qed.

Lemma types_by_name_run ts st :
  Forall (is_program_type (heap st)) ts →
  ∃ d, types_by_name ts st = (Ok d, st) ∧
       ∀ tn, dict_lookup (KStr tn) d = type_named (heap st) ts tn.
Proof.
  intros Hts. destruct (types_by_name_from [] ts st Hts) as (d & Hrun & Hd).
  exists d. split; [done|]. intros tn. rewrite Hd.
  by destruct (type_named _ _ _).
Qed.

Lemma py_in_strs fuel tn names st :
  py_in fuel (VStr tn) (VStr <$> names) st = (Ok (bool_decide (tn ∈ names)), st).
Proof.
  induction names as [|n names IH].
  - done.
  - assert (Heq : py_eq fuel (VStr tn) (VStr n) st
                  = (Ok (bool_decide (tn = n)), st)) by by destruct fuel.
    rewrite fmap_cons. cbn [py_in]. run Heq.
    case_bool_decide as Htn.
    + subst. rewrite bool_decide_eq_true_2; [done|]. apply list_elem_of_here.
    + rewrite IH. f_equal. f_equal. apply bool_decide_ext.
      rewrite elem_of_cons. split; [by right|by intros [?|?]].
Qed.

Lemma program_at_type h p l kvs tn :
  program_at h p l kvs tn →
  field h p "type" = Some (VStr tn) ∧ str_field h p "type" = Some tn.
Proof.
  intros (-> & Hl & _ & Htn). unfold str_field, field. simpl.
  by rewrite Hl, Htn.
Qed.

Lemma program_at_weaken h h' p l kvs tn :
  h ⊆ h' → program_at h p l kvs tn → program_at h' p l kvs tn.
Proof.
  intros Hsub (-> & Hl & Hjson & Htn). split_and!; try done.
  by eapply lookup_weaken.
Qed.

Lemma is_included_run include_types p l kvs tn st :
  program_at (heap st) p l kvs tn →
  is_included (type_filter include_types) p st =
    (Ok (included include_types (heap st) p), st).
Proof.
  intros Hp. destruct (program_at_type _ _ _ _ _ Hp) as [Hf Hs].
  unfold is_included, included, type_filter.
  destruct include_types as [[|n names]|]; try done.
  rewrite fmap_cons. cbn iota beta.
  run (getitem_field _ _ _ _ Hf). rewrite Hs, <-fmap_cons. apply py_in_strs.
Qed.

(** ** One program enriched *)

Lemma fresh_heap (h : gmap loc value) : h !! fresh (dom h) = None.
Proof. apply not_elem_of_dom, is_fresh. Qed.

Lemma heap_alloc_subseteq (h : gmap loc value) c : h ⊆ <[fresh (dom h) := c]> h.
Proof. apply insert_subseteq, fresh_heap. Qed.

Lemma setitem_ref l kvs k v st :
  heap st !! l = Some (VDict kvs) →
  setitem (VRef l) k v st =
    (Ok (VRef l), with_heap (<[l := VDict (dict_set (KStr k) v kvs)]> (heap st)) st).
Proof. intros Hl. unfold setitem. unfold load, mbind, M_bind. by rewrite Hl. Qed.

Lemma dict_getitem_str d tn st :
  dict_getitem d (VStr tn) st =
    (match dict_lookup (KStr tn) d with
     | Some v => Ok v
     | None => Err (KeyError (VStr tn))
     end, st).
Proof.
  unfold dict_getitem, py_hash, mbind, M_bind. simpl.
  by destruct (dict_lookup _ _).
Qed.

Lemma add_program_skip include_types d acc p l kvs tn st :
  program_at (heap st) p l kvs tn →
  included include_types (heap st) p = false →
  add_program_with_type (type_filter include_types) d acc p st = (Ok acc, st).
Proof.
  intros Hp Hinc. unfold add_program_with_type.
  run (is_included_run include_types _ _ _ _ _ Hp). by rewrite Hinc.
Qed.

Lemma add_program_included include_types d acc p l kvs tn st :
  program_at (heap st) p l kvs tn →
  included include_types (heap st) p = true →
  let l' := fresh (dom (heap st)) in
  add_program_with_type (type_filter include_types) d acc p st =
    match dict_lookup (KStr tn) d with
    | Some t =>
        (Ok (acc ++ [VRef l'])%list,
         with_heap (<[l' := VDict (dict_set (KStr "type") t kvs)]> (heap st)) st)
    | None =>
        (Err (KeyError (VStr tn)), with_heap (<[l' := VDict kvs]> (heap st)) st)
    end.
Proof.
  intros Hp Hinc l'. unfold add_program_with_type.
  run (is_included_run include_types _ _ _ _ _ Hp). rewrite Hinc.
  pose proof Hp as (-> & Hl & Hjson & Htn).
  run (deepcopy_json _ _ _ Hl Hjson). fold l'.
  set (st1 := with_heap (<[l' := VDict kvs]> (heap st)) st).
  assert (Hp1 : program_at (heap st1) (VRef l) l kvs tn).
  { eapply program_at_weaken; [|done]. apply heap_alloc_subseteq. }
  destruct (program_at_type _ _ _ _ _ Hp1) as [Hf _].
  run (getitem_field _ _ _ _ Hf).
  pose proof (dict_getitem_str d tn st1) as Hget.
  destruct (dict_lookup (KStr tn) d) as [t|];
    [run Hget|by rewrite (run_bind_err _ _ _ _ _ Hget)].
  assert (Hl' : heap st1 !! l' = Some (VDict kvs)) by apply lookup_insert_eq.
  run (setitem_ref _ _ "type" t _ Hl').
  unfold st1, with_heap. simpl. by rewrite insert_insert_eq.
Qed.

(** ** The loop over the programs *)

Lemma included_weaken include_types h h' p l kvs tn :
  h ⊆ h' → program_at h p l kvs tn →
  included include_types h' p = included include_types h p.
Proof.
  intros Hsub Hp. unfold included.
  destruct (program_at_type _ _ _ _ _ Hp) as [_ ->].
  destruct (program_at_type _ _ _ _ _ (program_at_weaken _ _ _ _ _ _ Hsub Hp))
    as [_ ->].
  done.
Qed.

Lemma type_known_named h ts p l kvs tn :
  program_at h p l kvs tn →
  type_known h ts p = true → is_Some (type_named h ts tn).
Proof.
  intros Hp. unfold type_known.
  destruct (program_at_type _ _ _ _ _ Hp) as [_ ->].
  by intros ?%bool_decide_eq_true.
Qed.

Lemma enrich_loop include_types d ts h0 ps :
  (∀ tn, dict_lookup (KStr tn) d = type_named h0 ts tn) →
  Forall (is_program h0) ps →
  Forall (λ p, included include_types h0 p = true → type_known h0 ts p = true) ps →
  ∀ st acc, h0 ⊆ heap st →
  ∃ rs st',
    for_each (add_program_with_type (type_filter include_types) d) acc ps st
      = (Ok (acc ++ rs)%list, st') ∧
    heap st ⊆ heap st' ∧ cache st' = cache st ∧ events st' = events st ∧
    NoDup rs ∧
    Forall (λ r, ∃ l', r = VRef l' ∧ heap st !! l' = None) rs ∧
    Forall2 (λ p r, ∃ l kvs tn t l',
               program_at h0 p l kvs tn ∧ type_named h0 ts tn = Some t ∧
               r = VRef l' ∧ heap st !! l' = None ∧
               heap st' !! l' = Some (VDict (dict_set (KStr "type") t kvs)))
            (filter (λ p, included include_types h0 p = true) ps) rs.
Proof.
  intros Hd Hps Hknown.
  induction Hps as [|p ps (l & kvs & tn & Hp) Hps IH]; intros st acc Hsub.
  - exists [], st. rewrite app_nil_r. split_and!; try done; constructor.
  - apply Forall_cons in Hknown as [Hknown_p Hknown_ps].
    specialize (IH Hknown_ps).
    pose proof (program_at_weaken _ _ _ _ _ _ Hsub Hp) as Hp_st.
    pose proof (included_weaken include_types _ _ _ _ _ _ Hsub Hp) as Hinc.
    cbn [for_each].
    destruct (included include_types h0 p) eqn:Hin.
    + destruct (type_known_named _ _ _ _ _ _ Hp (Hknown_p eq_refl)) as [t Ht].
      pose proof (add_program_included include_types d acc p l kvs tn st
                    Hp_st ltac:(by rewrite Hinc)) as Hstep.
      cbv zeta in Hstep. rewrite Hd, Ht in Hstep.
      set (l' := fresh (dom (heap st))) in *.
      set (st1 := with_heap _ st) in Hstep.
      assert (Hsub1 : heap st ⊆ heap st1) by apply heap_alloc_subseteq.
      destruct (IH st1 (acc ++ [VRef l'])%list) as
        (rs & st' & Hrun & Hsub' & Hcache & Hevents & Hnodup & Hnew & Hall).
      { by etrans. }
      exists (VRef l' :: rs), st'. run Hstep.
      rewrite Hrun, <-app_assoc. simpl.
      assert (Hl1 : heap st1 !! l' = Some (VDict (dict_set (KStr "type") t kvs)))
        by apply lookup_insert_eq.
      split_and!; try done.
      * by etrans.
      * constructor; [|done]. intros Hl'.
        rewrite Forall_forall in Hnew.
        destruct (Hnew _ Hl') as (l'' & [= <-] & Hnone). congruence.
      * constructor; [exists l'; split; [done|apply fresh_heap]|].
        eapply Forall_impl; [exact Hnew|]. intros r (l'' & -> & Hnone).
        exists l''. split; [done|]. by eapply lookup_weaken_None.
      * rewrite filter_cons_True by done. constructor.
        -- exists l, kvs, tn, t, l'. split_and!; try done; [apply fresh_heap|].
           by eapply lookup_weaken.
        -- eapply Forall2_impl; [exact Hall|].
           intros p' r (l0 & kvs0 & tn0 & t0 & l0' & ? & ? & ? & Hnone & ?).
           exists l0, kvs0, tn0, t0, l0'. split_and!; try done.
           by eapply lookup_weaken_None.
    + pose proof (add_program_skip include_types d acc p l kvs tn st
                    Hp_st ltac:(by rewrite Hinc)) as Hstep.
      destruct (IH st acc Hsub) as (rs & st' & Hrun & Hrest).
      exists rs, st'. run Hstep. rewrite filter_cons_False by by rewrite Hin.
      by split.
Qed.

Lemma get_programs_same_data uuid type st r st1 :
  get_programs uuid type st = (r, st1) →
  heap st1 = heap st ∧ cache st1 = cache st.
Proof.
  intros Hrun.
  destruct (same_data_run (get_programs uuid type) st) as [Hh Hc];
    [apply triple_get_programs; apply _|].
  by rewrite Hrun in Hh, Hc.
Qed.

Lemma get_program_types_same_data st r st1 :
  get_program_types st = (r, st1) →
  heap st1 = heap st ∧ cache st1 = cache st.
Proof.
  intros Hrun.
  destruct (same_data_run get_program_types st) as [Hh Hc];
    [apply triple_get_program_types; apply _|].
  by rewrite Hrun in Hh, Hc.
Qed.

(** C4.  [get_programs_with_type(include_types)] over the list [ps] that
    [get_programs()] returns.  When [ps] is empty the result is the empty
    list and the state is the one [get_programs()] left: the program types
    are not fetched.  Otherwise the program types are fetched once, and
    the result lists, in the order of [ps], one new object for each program
    whose type name is in [include_types] (for every program, when
    [include_types] is empty or absent) and none for the others; each new
    object has the content of its program with [type] replaced by the
    program type of that name. *)
Theorem get_programs_with_type_spec (include_types : option (list string))
    (st st1 : state) (ps : list value) :
  get_programs VNone VNone st = (Ok (VList ps), st1) →
  (ps = [] →
   get_programs_with_type (type_filter include_types) st
     = (Ok (VList []), st1)) ∧
  (ps ≠ [] →
   ∀ st2 ts,
     get_program_types st1 = (Ok (VList ts), st2) →
     Forall (is_program_type (heap st)) ts →
     Forall (is_program (heap st)) ps →
     Forall (λ p, included include_types (heap st) p = true →
                  type_known (heap st) ts p = true) ps →
     ∃ rs st',
       get_programs_with_type (type_filter include_types) st
         = (Ok (VList rs), st') ∧
       events st' = events st2 ∧ cache st' = cache st2 ∧
       heap st ⊆ heap st' ∧ NoDup rs ∧
       Forall2 (enriched_copy (heap st) (heap st') ts)
         (filter (λ p, included include_types (heap st) p = true) ps) rs).
Proof.
  intros Hprograms. unfold get_programs_with_type.
  destruct (get_programs_same_data _ _ _ _ _ Hprograms) as [Hheap1 _].
  split.
  - intros ->. by run Hprograms.
  - intros Hne st2 ts Htypes Hts Hps Hknown.
    destruct (get_program_types_same_data _ _ _ Htypes) as [Hheap2 _].
    run Hprograms.
    assert (Htruthy : truthy (VList ps) st1 = (Ok true, st1)) by by destruct ps.
    run Htruthy. run Htypes.
    assert (Hiter : ∀ vs, py_iter (VList vs) st2 = (Ok vs, st2)) by done.
    run (Hiter ts).
    destruct (types_by_name_run ts st2) as (d & Hd_run & Hd).
    { by rewrite Hheap2, Hheap1. }
    run Hd_run. run (Hiter ps).
    destruct (enrich_loop include_types d ts (heap st) ps) with (st := st2) (acc := @nil value)
      as (rs & st' & Hloop & Hsub & Hcache & Hevents & Hnodup & _ & Hall);
      try done.
    { intros tn. by rewrite Hd, Hheap2, Hheap1. }
    { by rewrite Hheap2, Hheap1. }
    run Hloop. exists rs, st'. rewrite Hheap2, Hheap1 in Hsub.
    split_and!; try done.
    eapply Forall2_impl; [exact Hall|].
    intros p r (l & kvs & tn & t & l' & ? & ? & ? & Hnone & ?).
    exists l, kvs, tn, t, l'. split_and!; try done.
    by rewrite Hheap2, Hheap1 in Hnone.
Qed.

Lemma type_unknown_named h ts p l kvs tn :
  program_at h p l kvs tn →
  type_known h ts p = false → type_named h ts tn = None.
Proof.
  intros Hp. unfold type_known.
  destruct (program_at_type _ _ _ _ _ Hp) as [_ ->].
  intros Hnot%bool_decide_eq_false. by apply eq_None_not_Some.
Qed.

Lemma enrich_loop_unknown include_types d ts h0 ps :
  (∀ tn, dict_lookup (KStr tn) d = type_named h0 ts tn) →
  Forall (is_program h0) ps →
  Exists (λ p, included include_types h0 p = true ∧
               type_known h0 ts p = false) ps →
  ∀ st acc, h0 ⊆ heap st →
  ∃ tn st',
    for_each (add_program_with_type (type_filter include_types) d) acc ps st
      = (Err (KeyError (VStr tn)), st') ∧
    type_named h0 ts tn = None.
Proof.
  intros Hd Hps.
  induction Hps as [|p ps (l & kvs & tn & Hp) Hps IH];
    intros Hex st acc Hsub; [by apply Exists_nil in Hex|].
  pose proof (program_at_weaken _ _ _ _ _ _ Hsub Hp) as Hp_st.
  pose proof (included_weaken include_types _ _ _ _ _ _ Hsub Hp) as Hinc.
  cbn [for_each].
  destruct (included include_types h0 p) eqn:Hin.
  - pose proof (add_program_included include_types d acc p l kvs tn st
                  Hp_st ltac:(by rewrite Hinc)) as Hstep.
    cbv zeta in Hstep. rewrite Hd in Hstep.
    destruct (type_known h0 ts p) eqn:Hknown.
    + destruct (type_known_named _ _ _ _ _ _ Hp Hknown) as [t Ht].
      rewrite Ht in Hstep. run Hstep. apply IH.
      * apply Exists_cons in Hex as [[_ ?]|?]; [congruence|done].
      * etrans; [exact Hsub|]. apply heap_alloc_subseteq.
    + pose proof (type_unknown_named _ _ _ _ _ _ Hp Hknown) as Hnone.
      rewrite Hnone in Hstep. rewrite (run_bind_err _ _ _ _ _ Hstep). eauto.
  - run (add_program_skip include_types d acc p l kvs tn st
           Hp_st ltac:(by rewrite Hinc)).
    apply IH; [|done]. apply Exists_cons in Hex as [[? _]|?]; [congruence|done].
Qed.

(** C9.  When the list that [get_programs()] returns holds a program that
    passes the filter and whose type name is the name of none of the
    program types, [get_programs_with_type] raises [KeyError] for a type
    name that is not among the program types: the call as a whole fails,
    no list is returned. *)
Theorem get_programs_with_type_unknown_type
    (include_types : option (list string)) (st st1 st2 : state)
    (ps ts : list value) :
  get_programs VNone VNone st = (Ok (VList ps), st1) →
  get_program_types st1 = (Ok (VList ts), st2) →
  Forall (is_program_type (heap st)) ts →
  Forall (is_program (heap st)) ps →
  Exists (λ p, included include_types (heap st) p = true ∧
               type_known (heap st) ts p = false) ps →
  ∃ tn,
    (get_programs_with_type (type_filter include_types) st).1
      = Err (KeyError (VStr tn)) ∧
    type_named (heap st) ts tn = None.
Proof.
  intros Hprograms Htypes Hts Hps Hex. unfold get_programs_with_type.
  destruct (get_programs_same_data _ _ _ _ _ Hprograms) as [Hheap1 _].
  destruct (get_program_types_same_data _ _ _ Htypes) as [Hheap2 _].
  run Hprograms.
  assert (Htruthy : truthy (VList ps) st1 = (Ok true, st1)).
  { destruct ps; [by apply Exists_nil in Hex|done]. }
  run Htruthy. run Htypes.
  assert (Hiter : ∀ vs, py_iter (VList vs) st2 = (Ok vs, st2)) by done.
  run (Hiter ts).
  destruct (types_by_name_run ts st2) as (d & Hd_run & Hd).
  { by rewrite Hheap2, Hheap1. }
  run Hd_run. run (Hiter ps).
  destruct (enrich_loop_unknown include_types d ts (heap st) ps)
    with (st := st2) (acc := @nil value) as (tn & st' & Hloop & Hnone);
    try done.
  { intros tn. by rewrite Hd, Hheap2, Hheap1. }
  { by rewrite Hheap2, Hheap1. }
  exists tn. by rewrite (run_bind_err _ _ _ _ _ Hloop).
Qed.

(** ** The instructor cache *)

Lemma truthy_not_ref v st :
  (∀ l, v ≠ VRef l) → truthy v st = (Ok (is_truthy v), st).
Proof. intros Hv. destruct v; try done. by destruct (Hv l). Qed.

Lemma reads_run {A} (m : M A) st : reads m → m st = ((m st).1, st).
Proof. intros Hm. specialize (Hm st). by destruct (m st) as [r st']; simplify_eq/=. Qed.

Lemma get_program_instructors_run program ck st :
  cache_key_of (heap st) program = Some ck →
  let cached := default VNone (cache st !! ck) in
  (∀ l, cached ≠ VRef l) →
  _get_program_instructors program st =
    if is_truthy cached then (Ok cached, after_cache_get ck st)
    else
      match (collect_program_instructors program (after_cache_get ck st)).1 with
      | Ok instructors =>
          (Ok instructors, after_cache_set ck instructors (after_cache_get ck st))
      | Err e => (Err e, after_cache_get ck st)
      end.
Proof.
  intros Hck cached Hcached. unfold cache_key_of in Hck.
  destruct (resolved (heap st) program) as [[]|] eqn:Hprogram; try done.
  destruct (resolved (heap st) (default VNone (dict_lookup (KStr "uuid") kvs)))
    as [c|] eqn:Huuid; [|done].
  injection Hck as <-.
  unfold _get_program_instructors.
  assert (Hget : dict_get program "uuid" VNone st
                 = (Ok (default VNone (dict_lookup (KStr "uuid") kvs)), st)).
  { unfold dict_get. by run (resolve_resolved _ _ _ Hprogram). }
  run Hget.
  assert (Hfmt : py_format (default VNone (dict_lookup (KStr "uuid") kvs)) st
                 = (Ok (py_str c), st)).
  { unfold py_format. by run (resolve_resolved _ _ _ Huuid). }
  run Hfmt. cbv zeta.
  set (ck := "program.instructors." ++ py_str c) in *.
  assert (Hcache : cache_get ck st = (Ok cached, after_cache_get ck st)) by done.
  run Hcache.
  run (truthy_not_ref cached (after_cache_get ck st) Hcached).
  destruct (is_truthy cached); simpl; [done|].
  rewrite run_bind.
  rewrite (reads_run (collect_program_instructors program) (after_cache_get ck st))
    by apply reads_collect_program_instructors.
  by destruct (collect_program_instructors program (after_cache_get ck st)).1.
Qed.

(** ** Dicts of instructors *)

Lemma dict_lookup_None k (d : dict) : k ∉ d.*1 → dict_lookup k d = None.
Proof.
  induction d as [|[k' v] d IH]; simpl; [done|].
  rewrite not_elem_of_cons. intros [Hne Hnin]. by rewrite decide_False, IH.
Qed.

Lemma dict_lookup_elem_of k v (d : dict) :
  NoDup d.*1 → dict_lookup k d = Some v ↔ (k, v) ∈ d.
Proof.
  induction d as [|[k' v'] d IH]; simpl.
  - intros _. split; [done|]. by intros ?%elem_of_nil.
  - rewrite NoDup_cons. intros [Hnin Hnodup]. rewrite elem_of_cons.
    destruct (decide (k = k')) as [->|Hne].
    + split; [intros [= ->]; by left|].
      intros [[= ->]|Hin]; [done|].
      destruct Hnin. apply list_elem_of_fmap. by exists (k', v).
    + rewrite IH by done. split; [by right|]. intros [[= ? ?]|?]; [done|done].
Qed.

Lemma dict_set_keys k v (d : dict) :
  (dict_set k v d).*1 = if decide (k ∈ d.*1) then d.*1 else (d.*1 ++ [k])%list.
Proof.
  induction d as [|[k' v'] d IH].
  - done.
  - cbn [dict_set]. rewrite fmap_cons. cbn [fst].
    destruct (decide (k = k')) as [->|Hne].
    + rewrite fmap_cons, decide_True; [done|]. apply list_elem_of_here.
    + rewrite fmap_cons, IH. cbn [fst].
      destruct (decide (k ∈ d.*1)) as [Hin|Hnin].
      * rewrite decide_True; [done|]. by apply list_elem_of_further.
      * rewrite decide_False; [done|]. rewrite not_elem_of_cons. by split.
Qed.

Lemma dict_set_elem_of k v (d : dict) kv :
  kv ∈ dict_set k v d → kv = (k, v) ∨ kv ∈ d.
Proof.
  induction d as [|[k' v'] d IH]; simpl.
  - intros ->%list_elem_of_singleton. by left.
  - destruct (decide (k = k')) as [->|Hne]; rewrite !elem_of_cons.
    + intros [->|?]; [by left|by right; right].
    + intros [->|Hin]; [by right; left|].
      destruct (IH Hin); [by left|by right; right].
Qed.

Lemma filed_nil : filed [].
Proof. split; constructor. Qed.

Lemma filed_dict_set k i d :
  instructor_name i = Some k → filed d → filed (dict_set k i d).
Proof.
  intros Hi [Hnodup Hall]. split.
  - rewrite dict_set_keys. case_decide; [done|].
    apply NoDup_app. split_and!; [done| |apply NoDup_singleton].
    intros k' Hin ->%list_elem_of_singleton. done.
  - apply Forall_forall. intros kv [->|Hin]%dict_set_elem_of; [done|].
    rewrite Forall_forall in Hall. by apply Hall.
Qed.

Lemma filed_dict_update d other : filed d → filed other → filed (dict_update d other).
Proof.
  intros Hd [_ Hother]. unfold dict_update. revert d Hd.
  induction Hother as [|[k i] other Hi _ IH]; intros d Hd; simpl; [done|].
  apply IH. by apply filed_dict_set.
Qed.

Lemma name_of_named i : is_Some (instructor_name i) → instructor_name i = Some (name_of i).
Proof. intros [k Hk]. unfold name_of. by rewrite Hk. Qed.

Lemma filed_by_name_from d instructors :
  Forall (λ i, is_Some (instructor_name i)) instructors →
  filed d → filed (foldl (λ d i, dict_set (name_of i) i d) d instructors).
Proof.
  intros His. revert d. induction His as [|i rest Hi _ IH]; intros d Hd; simpl; [done|].
  apply IH, filed_dict_set; [by apply name_of_named|done].
Qed.

Lemma last_filter_cons {A} (P : A → Prop) `{!∀ x, Decision (P x)} x l :
  last (filter P (x :: l)) =
    match last (filter P l) with
    | Some y => Some y
    | None => if decide (P x) then Some x else None
    end.
Proof.
  rewrite filter_cons. case_decide; [|by destruct (last _)].
  apply last_cons.
Qed.

Lemma last_filter_app {A} (P : A → Prop) `{!∀ x, Decision (P x)}
    (l1 l2 : list A) :
  last (filter P (l1 ++ l2)%list) =
    match last (filter P l2) with
    | Some y => Some y
    | None => last (filter P l1)
    end.
Proof.
  induction l1 as [|x l1 IH]; simpl.
  - by destruct (last _).
  - rewrite !last_filter_cons, IH. by destruct (last (filter P l2)).
Qed.

Lemma lookup_filed_by_name_from n d instructors :
  Forall (λ i, is_Some (instructor_name i)) instructors →
  dict_lookup n (foldl (λ d i, dict_set (name_of i) i d) d instructors) =
    match last (filter (has_name n) instructors) with
    | Some i => Some i
    | None => dict_lookup n d
    end.
Proof.
  intros His. revert d. induction His as [|i rest Hi _ IH]; intros d; simpl; [done|].
  rewrite IH, last_filter_cons. destruct (last (filter (has_name n) rest)); [done|].
  rewrite dict_lookup_set.
  pose proof (name_of_named i Hi) as Hname.
  destruct (decide (n = name_of i)) as [Heq|Hne].
  - rewrite decide_True; [done|]. unfold has_name. by rewrite Hname, Heq.
  - rewrite decide_False; [done|]. unfold has_name. rewrite Hname.
    intros [= Heq]. by destruct Hne.
Qed.

Lemma lookup_dict_update n d (other : dict) :
  NoDup other.*1 →
  dict_lookup n (dict_update d other) =
    match dict_lookup n other with
    | Some v => Some v
    | None => dict_lookup n d
    end.
Proof.
  unfold dict_update. revert d.
  induction other as [|[k v] other IH]; intros d; simpl; [done|].
  rewrite NoDup_cons. intros [Hnin Hnodup]. rewrite IH by done.
  destruct (decide (n = k)) as [->|Hne].
  - by rewrite dict_lookup_None, dict_lookup_set_eq.
  - rewrite dict_lookup_set_ne by done. done.
Qed.

(** ** The aggregation as a pure function *)

Lemma instructors_by_name_from d instructors st :
  Forall (λ i, is_Some (instructor_name i)) instructors →
  for_each
    (λ d instructor,
       name ← dict_get instructor "name" VNone;
       k ← py_hash name;
       mret (dict_set k instructor d))
    d instructors st
  = (Ok (foldl (λ d i, dict_set (name_of i) i d) d instructors), st).
Proof.
  intros His. revert d.
  induction His as [|i rest [k Hk] _ IH]; intros d; [done|].
  cbn [for_each foldl].
  assert (Hstep :
    (name ← dict_get i "name" VNone; k ← py_hash name; mret (dict_set k i d)) st
    = (Ok (dict_set (name_of i) i d), st)).
  { unfold name_of. rewrite Hk. destruct i; try done. simpl in Hk.
    unfold dict_get, py_hash, mbind, M_bind. simpl. by rewrite Hk. }
  rewrite (run_bind_ok _ _ _ _ _ Hstep). apply IH.
Qed.

Lemma add_course_instructors_run d k instructors st :
  course_instructors k = Some instructors →
  Forall (λ i, is_Some (instructor_name i)) instructors →
  add_course_instructors d k st
    = (Ok (dict_update d (filed_by_name instructors)), st).
Proof.
  unfold course_instructors, add_course_instructors. intros Hk His.
  destruct (get_course k) as [[info]|]; simpl in *; [|by simplify_eq].
  assert (Hget : dict_get (default (VDict []) info) "instructors" (VList []) st
                 = (Ok (VList instructors), st)).
  { destruct info as [[]|]; simplify_eq/=; [|done].
    unfold dict_get, mbind, M_bind. simpl.
    destruct (dict_lookup (KStr "instructors") kvs) as [[]|]; by simplify_eq/=. }
  run Hget.
  assert (Hiter : py_iter (VList instructors) st = (Ok instructors, st)) by done.
  run Hiter. unfold instructors_by_name.
  by run (instructors_by_name_from [] instructors st His).
Qed.

Lemma gather_run d keys st :
  Forall course_ok keys →
  for_each add_course_instructors d keys st = (Ok (gathered d keys), st).
Proof.
  intros Hkeys. revert d.
  induction Hkeys as [|k keys (instructors & Hk & His) _ IH]; intros d; [done|].
  cbn [for_each]. run (add_course_instructors_run d k instructors st Hk His).
  rewrite IH. unfold gathered. cbn [foldl]. by rewrite Hk.
Qed.

Lemma filed_filed_by_name instructors :
  Forall (λ i, is_Some (instructor_name i)) instructors →
  filed (filed_by_name instructors).
Proof. intros His. by apply filed_by_name_from; [|apply filed_nil]. Qed.

Lemma filed_gathered d keys :
  Forall course_ok keys → filed d → filed (gathered d keys).
Proof.
  intros Hkeys. revert d.
  induction Hkeys as [|k keys (instructors & Hk & His) _ IH]; intros d Hd; [done|].
  unfold gathered. cbn [foldl]. apply IH. rewrite Hk. simpl.
  by apply filed_dict_update; [|apply filed_filed_by_name].
Qed.

Lemma lookup_gathered n d keys :
  Forall course_ok keys →
  dict_lookup n (gathered d keys) =
    match last (filter (has_name n) (instructor_stream keys)) with
    | Some i => Some i
    | None => dict_lookup n d
    end.
Proof.
  intros Hkeys. revert d.
  induction Hkeys as [|k keys (instructors & Hk & His) _ IH]; intros d; [done|].
  unfold gathered, instructor_stream. cbn [foldl]. rewrite fmap_cons.
  cbn [concat]. fold (instructor_stream keys).
  fold (gathered (dict_update d (filed_by_name (default [] (course_instructors k)))) keys).
  rewrite IH, last_filter_app, Hk. simpl.
  destruct (last (filter (has_name n) (instructor_stream keys))); [done|].
  rewrite lookup_dict_update by apply filed_filed_by_name, His.
  unfold filed_by_name. rewrite lookup_filed_by_name_from by done. simpl.
  by destruct (last (filter (has_name n) instructors)).
Qed.

Lemma set_iter_spec keys :
  NoDup (set_iter keys) ∧ ∀ k, k ∈ set_iter keys ↔ k ∈ keys.
Proof.
  unfold set_iter. split.
  - rewrite merge_sort_Permutation. apply NoDup_elements.
  - intros k. rewrite merge_sort_Permutation. apply elem_of_elements.
Qed.

Lemma elem_of_dict_values d i :
  filed d →
  i ∈ dict_values d ↔ ∃ n, dict_lookup n d = Some i.
Proof.
  intros [Hnodup _]. unfold dict_values. rewrite merge_sort_Permutation.
  rewrite list_elem_of_fmap. split.
  - intros ([n i'] & -> & Hin). exists n. by apply dict_lookup_elem_of.
  - intros (n & Hn). exists (n, i). split; [done|]. by apply dict_lookup_elem_of.
Qed.

Lemma dict_values_names d :
  filed d → NoDup (instructor_name <$> dict_values d).
Proof.
  intros [Hnodup Hall]. unfold dict_values. rewrite merge_sort_Permutation.
  assert (Heq : instructor_name <$> d.*2 = Some <$> d.*1).
  { induction Hall as [|[k v] d' Hkv _ IH]; [done|].
    rewrite !fmap_cons. simpl in *. rewrite Hkv. f_equal. apply IH.
    by apply NoDup_cons in Hnodup as [_ ?]. }
  rewrite Heq. by apply (NoDup_fmap_2 _).
Qed.

Lemma collect_program_instructors_run program keys st :
  get_program_course_run_keys program st = (Ok keys, st) →
  (∀ k, k ∈ keys → course_ok k) →
  collect_program_instructors program st
    = (Ok (VList (dict_values (gathered [] (set_iter keys)))), st) ∧
  filed (gathered [] (set_iter keys)) ∧
  ∀ n, dict_lookup n (gathered [] (set_iter keys))
       = last (filter (has_name n) (instructor_stream (set_iter keys))).
Proof.
  intros Hkeys Hok.
  assert (Hall : Forall course_ok (set_iter keys)).
  { apply Forall_forall. intros k Hk. by apply Hok, set_iter_spec. }
  split_and!.
  - unfold collect_program_instructors. run Hkeys.
    by run (gather_run [] (set_iter keys) st Hall).
  - by apply filed_gathered; [|apply filed_nil].
  - intros n. rewrite lookup_gathered by done. by destruct (last _).
Qed.

(** ** The program found by its marketing slug *)

Global Instance same_heap_log_stable h : LogStable (same_heap h).
Proof. by intros st es. Qed.

Global Instance same_heap_cache_stable h : CacheStable (same_heap h).
Proof. by intros st c. Qed.

Lemma get_program_type_heap name st : heap (get_program_type name st).2 = heap st.
Proof.
  destruct (triple_get_program_type (same_heap (heap st)) name st) as [Hh _];
    [done|exact Hh].
Qed.

Lemma get_program_instructors_heap program st :
  heap (_get_program_instructors program st).2 = heap st.
Proof.
  destruct (triple_get_program_instructors (same_heap (heap st)) program st)
    as [Hh _]; [done|exact Hh].
Qed.

Lemma truthy_readable obj k st :
  readable (heap st) obj k → truthy obj st = (Ok true, st).
Proof.
  unfold readable, field. intros [c Hc].
  destruct (resolved (heap st) obj) as [[]|] eqn:Hobj; try done.
  unfold truthy. run (resolve_resolved _ _ _ Hobj). by destruct kvs.
Qed.

(** C1.  [get_program_with_type_and_instructors(s)] over the list [ps]
    that [get_programs()] returns.  When no program of [ps] has the
    marketing slug [s] the result is [None].  Otherwise the first program
    of that slug is taken and fetched again by its uuid; the result is a
    new object with the content of the re-fetched program, its [type]
    replaced by what [get_program_type] returns for the type name and its
    [instructors] set to what [_get_program_instructors] returns for the
    re-fetched program, every other object of the store being as before.
    An exception of either of the two is the outcome of the call. *)
Theorem get_program_with_type_and_instructors_spec (s : string)
    (st st1 : state) (ps : list value) :
  get_programs VNone VNone st = (Ok (VList ps), st1) →
  Forall (λ p, readable (heap st) p "marketing_slug") ps →
  let run := get_program_with_type_and_instructors (VStr s) st in
  match find (field_is (heap st) "marketing_slug" s) ps with
  | None => run = (Ok VNone, st1)
  | Some p =>
      ∀ uuid st2 l kvs tn,
        field (heap st) p "uuid" = Some uuid →
        get_programs uuid VNone st1 = (Ok (VRef l), st2) →
        program_at (heap st) (VRef l) l kvs tn →
        let l' := fresh (dom (heap st)) in
        let type_run :=
          get_program_type (VStr tn)
            (with_heap (<[l' := VDict kvs]> (heap st)) st2) in
        match type_run.1 with
        | Err e => run.1 = Err e
        | Ok t =>
            let typed := dict_set (KStr "type") t kvs in
            let instructors_run :=
              _get_program_instructors (VRef l)
                (with_heap (<[l' := VDict typed]> (heap st)) type_run.2) in
            match instructors_run.1 with
            | Err e => run.1 = Err e
            | Ok instructors =>
                heap st !! l' = None ∧
                run = (Ok (VRef l'),
                       with_heap
                         (<[l' := VDict (dict_set (KStr "instructors")
                                           instructors typed)]> (heap st))
                         instructors_run.2)
            end
        end
  end.
Proof.
  intros Hprograms Hps run. subst run.
  unfold get_program_with_type_and_instructors.
  destruct (get_programs_same_data _ _ _ _ _ Hprograms) as [Hheap1 _].
  run Hprograms.
  assert (Hiter : py_iter (VList ps) st1 = (Ok ps, st1)) by done.
  run Hiter.
  assert (Hnext : ∀ dflt,
    next_matching
      (λ program, slug ← getitem program "marketing_slug";
                  py_eq recursion_limit slug (VStr s)) ps dflt st1
    = (match find (field_is (heap st) "marketing_slug" s) ps with
       | Some p => Ok p
       | None => match dflt with Some d => Ok d | None => Err StopIteration end
       end, st1)).
  { intros dflt. apply next_matching_find.
    eapply Forall_impl; [exact Hps|]. intros p Hread. simpl.
    pose proof Hread as [c Hc].
    destruct (field (heap st) p "marketing_slug") as [v|] eqn:Hv; [|done].
    run (getitem_field p "marketing_slug" v st1 ltac:(by rewrite Hheap1)).
    by apply py_eq_field_is with (obj := p) (k := "marketing_slug"). }
  specialize (Hnext (Some VNone)).
  destruct (find (field_is (heap st) "marketing_slug" s) ps) as [p|] eqn:Hfind.
  2:{ by run Hnext. }
  intros uuid st2 l kvs tn Huuid Hrefetch Hl.
  set (l' := fresh (dom (heap st))).
  set (st_copy := with_heap (<[l' := VDict kvs]> (heap st)) st2).
  apply find_some in Hfind as [Hin _].
  apply list_elem_of_In in Hin. rewrite Forall_forall in Hps.
  run Hnext.
  run (truthy_readable p "marketing_slug" st1 ltac:(rewrite Hheap1; by apply Hps)).
  run (getitem_field p "uuid" uuid st1 ltac:(by rewrite Hheap1)).
  destruct (get_programs_same_data _ _ _ _ _ Hrefetch) as [Hheap2 _].
  rewrite Hheap1 in Hheap2.
  run Hrefetch.
  pose proof Hl as (_ & Hcell & Hjson & Htn).
  run (deepcopy_json l (VDict kvs) st2 ltac:(by rewrite Hheap2) Hjson).
  rewrite Hheap2. fold l' st_copy.
  assert (Hfresh : heap st !! l' = None) by apply fresh_heap.
  assert (Hcell_copy : heap st_copy !! l = Some (VDict kvs)).
  { simpl. rewrite lookup_insert_ne; [done|]. intros <-. congruence. }
  assert (Hf : field (heap st_copy) (VRef l) "type" = Some (VStr tn)).
  { unfold field. simpl in *. by rewrite Hcell_copy. }
  run (getitem_field _ _ _ _ Hf).
  pose proof (get_program_type_heap (VStr tn) st_copy) as Hheap3.
  rewrite run_bind.
  destruct (get_program_type (VStr tn) st_copy) as [[t|e] st3];
    cbn [fst snd] in *; [|done].
  assert (Hl3 : heap st3 !! l' = Some (VDict kvs)).
  { rewrite Hheap3. apply lookup_insert_eq. }
  run (setitem_ref l' kvs "type" t st3 Hl3).
  rewrite Hheap3. cbn [heap st_copy with_heap]. rewrite insert_insert_eq.
  set (st_typed := with_heap _ st3).
  pose proof (get_program_instructors_heap (VRef l) st_typed) as Hheap4.
  rewrite run_bind.
  destruct (_get_program_instructors (VRef l) st_typed) as [[ins|e] st4];
    cbn [fst snd] in *; [|done].
  split; [done|].
  assert (Hl4 : heap st4 !! l' = Some (VDict (dict_set (KStr "type") t kvs))).
  { rewrite Hheap4. apply lookup_insert_eq. }
  run (setitem_ref l' _ "instructors" ins st4 Hl4).
  rewrite Hheap4. cbn [heap st_typed with_heap]. by rewrite insert_insert_eq.
Qed.

(** ** More on the fetchers *)

(** X1.  When the token of the API client cannot be built, both fetchers
    raise the error of the token builder and the fetch utility is not
    called. *)
Theorem token_failure_propagates (uuid type : value) (st : state) (e : exn) :
  enabled catalog_integration = true →
  service_username catalog_integration ∈ users →
  build_token (service_username catalog_integration) ["email"; "profile"]
    OAUTH_ID_TOKEN_EXPIRATION = Err e →
  get_programs uuid type st = (Err e, st) ∧
  get_program_types st = (Err e, st).
Proof.
  intros Hon Huser Htoken.
  unfold get_programs, get_program_types, User_objects_get,
    create_catalog_api_client.
  rewrite Hon, decide_True by done.
  unfold lift, mbind, M_bind. by rewrite Htoken.
Qed.

(** X2.  With the integration enabled, the service user there and a token
    built, [get_program_types] calls the fetch utility once, for the
    resource [program_types] with no resource id and no query string,
    under the cache key [<prefix>.program_types] (none when the cache is
    disabled), with a client for the internal API url; and it returns what
    the fetch utility returns, an exception included. *)
Theorem get_program_types_request (st : state) (token : string) :
  enabled catalog_integration = true →
  service_username catalog_integration ∈ users →
  build_token (service_username catalog_integration) ["email"; "profile"]
    OAUTH_ID_TOKEN_EXPIRATION = Ok token →
  get_program_types st =
    (get_edx_api_data (program_types_request token),
     after_api_call (program_types_request token) st).
Proof.
  intros Hon Huser Htoken.
  unfold get_program_types, User_objects_get, create_catalog_api_client.
  rewrite Hon, decide_True by done.
  unfold lift, mbind, M_bind. by rewrite Htoken.
Qed.

(** X3.  With the integration enabled, the service user there and a token
    built, [get_programs(uuid, type)] calls the fetch utility exactly once
    and returns its answer untouched: a list, one program, or an
    exception.  The call is made for the service user, with the current
    configuration and a client for the internal API url that carries the
    token. *)
Theorem get_programs_passes_through (uuid type : option string)
    (st : state) (token : string) :
  enabled catalog_integration = true →
  service_username catalog_integration ∈ users →
  build_token (service_username catalog_integration) ["email"; "profile"]
    OAUTH_ID_TOKEN_EXPIRATION = Ok token →
  ∃ r,
    get_programs (opt_str uuid) (opt_str type) st
      = (get_edx_api_data r, after_api_call r st) ∧
    req_config r = catalog_integration ∧
    req_user r = service_username catalog_integration ∧
    req_api r = {| base_url := internal_api_url catalog_integration;
                   jwt := token |}.
Proof.
  intros Hon Huser Htoken.
  unfold get_programs, User_objects_get, create_catalog_api_client.
  rewrite Hon, decide_True by done.
  rewrite !run_bind. unfold lift at 1. rewrite Htoken. simpl.
  rewrite (run_bind_ok _ _ _ _ _ (truthy_opt_str _ _)).
  assert (Hsuffix : ∃ suffix, ∀ st0,
    (if given type then str_add "." (opt_str type) else mret "") st0
    = (Ok suffix, st0)).
  { destruct type as [t|]; simpl; [|by eexists].
    case_bool_decide; by eexists. }
  destruct Hsuffix as [suffix Hsuffix].
  rewrite (run_bind_ok _ _ _ _ _ (Hsuffix _)).
  rewrite !(run_bind_ok _ _ _ _ _ (truthy_opt_str _ _)).
  eexists. split; [reflexivity|]. by split_and!.
Qed.

(** X4.  A type that is truthy and not a string makes [get_programs]
    raise [TypeError] where the cache key is put together, before the
    fetch utility is called. *)
Theorem get_programs_type_not_a_string (uuid type : value) (st : state)
    (token : string) :
  enabled catalog_integration = true →
  service_username catalog_integration ∈ users →
  build_token (service_username catalog_integration) ["email"; "profile"]
    OAUTH_ID_TOKEN_EXPIRATION = Ok token →
  is_truthy type = true →
  (∀ s, type ≠ VStr s) → (∀ l, type ≠ VRef l) →
  get_programs uuid type st = (Err TypeError, st).
Proof.
  intros Hon Huser Htoken Htruthy Hstr Href.
  unfold get_programs, User_objects_get, create_catalog_api_client.
  rewrite Hon, decide_True by done.
  rewrite !run_bind. unfold lift at 1. rewrite Htoken. simpl.
  rewrite (run_bind_ok _ _ _ _ _ (truthy_not_ref type st Href)), Htruthy.
  assert (Hadd : str_add "." type st = (Err TypeError, st)).
  { destruct type; try done. by destruct (Hstr s). by destruct (Href l). }
  by rewrite (run_bind_err _ _ _ _ _ Hadd).
Qed.

(** X6.  With the integration disabled, or without the service user, the
    composers give up quietly: [get_programs_with_type] returns the empty
    list and [get_program_with_type_and_instructors] returns [None], the
    state being left as it was, while [get_program_type] raises
    [StopIteration]. *)
Theorem composers_unavailable (include_types : option (list value))
    (marketing_slug name : value) (st : state) :
  enabled catalog_integration = false ∨
    service_username catalog_integration ∉ users →
  get_programs_with_type include_types st = (Ok (VList []), st) ∧
  get_program_with_type_and_instructors marketing_slug st = (Ok VNone, st) ∧
  get_program_type name st = (Err StopIteration, st).
Proof.
  intros Hoff.
  assert (Hprograms : ∀ u t st0, get_programs u t st0 = (Ok (VList []), st0)).
  { intros. unfold get_programs, User_objects_get.
    destruct Hoff as [-> | Hnouser]; [done|].
    destruct (enabled catalog_integration); [|done]. by rewrite decide_False. }
  assert (Htypes : ∀ st0, get_program_types st0 = (Ok (VList []), st0)).
  { intros. unfold get_program_types, User_objects_get.
    destruct Hoff as [-> | Hnouser]; [done|].
    destruct (enabled catalog_integration); [|done]. by rewrite decide_False. }
  split_and!.
  - unfold get_programs_with_type. by run (Hprograms VNone VNone st).
  - unfold get_program_with_type_and_instructors.
    by run (Hprograms VNone VNone st).
  - unfold get_program_type. by run (Htypes st).
Qed.

(** ** The course-run keys of a program *)

Lemma run_lift_bind {A B} (r : result A) (f : A → M B) st :
  (lift r ≫= f) st =
    match r with
    | Ok a => f a st
    | Err e => (Err e, st)
    end.
Proof. by destruct r. Qed.

Lemma parse_all_app vs1 vs2 :
  parse_all (vs1 ++ vs2) =
    match parse_all vs1 with
    | Ok ks1 =>
        match parse_all vs2 with
        | Ok ks2 => Ok (ks1 ++ ks2)%list
        | Err e => Err e
        end
    | Err e => Err e
    end.
Proof.
  induction vs1 as [|v vs1 IH]; simpl.
  - by destruct (parse_all vs2).
  - destruct (CourseKey_from_string v); [|done]. rewrite IH.
    destruct (parse_all vs1); [|done]. by destruct (parse_all vs2).
Qed.

Lemma add_run_keys course_runs vs (acc : gset CourseKey) st :
  mapM run_key course_runs = Some vs →
  for_each
    (λ keys course_run,
       k ← getitem course_run "key";
       course_key ← lift (CourseKey_from_string k);
       mret ({[course_key]} ∪ keys))
    acc course_runs st
  = (match parse_all vs with
     | Ok ks => Ok (list_to_set ks ∪ acc)
     | Err e => Err e
     end, st).
Proof.
  revert vs acc. induction course_runs as [|r rs IH]; intros vs acc.
  - intros [= <-]. simpl. by rewrite (left_id_L ∅ (∪)).
  - rewrite mapM_Some. intros Hall.
    apply Forall2_cons_inv_l in Hall as (v & vs' & Hr & Hrs & ->).
    apply mapM_Some in Hrs. cbn [for_each parse_all].
    assert (Hget : getitem r "key" st = (Ok v, st)).
    { destruct r; try done. apply getitem_field. exact Hr. }
    run Hget. rewrite ?run_bind_assoc, run_lift_bind.
    destruct (CourseKey_from_string v) as [k|e]; [|done].
    rewrite run_ret_bind, (IH vs' _ Hrs).
    destruct (parse_all vs') as [ks|e]; [|done].
    f_equal. f_equal. rewrite list_to_set_cons.
    by rewrite (assoc_L (∪)), (comm_L (∪) (list_to_set ks)).
Qed.

Lemma add_course_keys courses vss (acc : gset CourseKey) st :
  mapM course_keys courses = Some vss →
  for_each
    (λ keys course,
       course_runs ← getitem course "course_runs";
       course_runs ← py_iter course_runs;
       for_each
         (λ keys course_run,
            k ← getitem course_run "key";
            course_key ← lift (CourseKey_from_string k);
            mret ({[course_key]} ∪ keys))
         keys course_runs)
    acc courses st
  = (match parse_all (concat vss) with
     | Ok ks => Ok (list_to_set ks ∪ acc)
     | Err e => Err e
     end, st).
Proof.
  revert vss acc. induction courses as [|c cs IH]; intros vss acc.
  - intros [= <-]. simpl. by rewrite (left_id_L ∅ (∪)).
  - rewrite mapM_Some. intros Hall.
    apply Forall2_cons_inv_l in Hall as (vs & vss' & Hc & Hcs & ->).
    apply mapM_Some in Hcs. cbn [for_each concat].
    destruct c as [| | | |kvs|]; try done. simpl in Hc.
    destruct (dict_lookup (KStr "course_runs") kvs) as [[]|] eqn:Hruns;
      try done.
    assert (Hget : getitem (VDict kvs) "course_runs" st = (Ok (VList vs0), st)).
    { by apply getitem_field. }
    rewrite run_bind_assoc. run Hget.
    assert (Hiter : py_iter (VList vs0) st = (Ok vs0, st)) by done.
    rewrite run_bind_assoc. run Hiter.
    rewrite run_bind, (add_run_keys _ _ _ _ Hc), parse_all_app.
    destruct (parse_all vs) as [ks|e]; [|done].
    rewrite (IH vss' _ Hcs).
    destruct (parse_all (concat vss')) as [ks'|e]; [|done].
    f_equal. f_equal. rewrite list_to_set_app_L.
    by rewrite (assoc_L (∪)), (comm_L (∪) (list_to_set ks')).
Qed.

(** X7.  For a program whose courses and course runs are all there,
    [get_program_course_run_keys] returns the set of the parsed keys of
    its course runs: a key listed for several course runs is in the set
    once.  When a key does not parse, the error of the first such key, in
    the order of the program, is raised. *)
Theorem get_program_course_run_keys_set (program c : value)
    (vs : list value) (st : state) :
  resolved (heap st) program = Some c →
  program_keys c = Some vs →
  get_program_course_run_keys program st =
    (match parse_all vs with
     | Ok ks => Ok (list_to_set ks)
     | Err e => Err e
     end, st).
Proof.
  intros Hprogram Hkeys. unfold get_program_course_run_keys.
  destruct c as [| | | |kvs|]; try done. simpl in Hkeys.
  destruct (dict_lookup (KStr "courses") kvs) as [[]|] eqn:Hcourses; try done.
  destruct (mapM course_keys vs0) as [vss|] eqn:Hvss; [|done].
  injection Hkeys as <-.
  assert (Hget : getitem program "courses" st = (Ok (VList vs0), st)).
  { apply getitem_field. unfold field. by rewrite Hprogram. }
  run Hget.
  assert (Hiter : py_iter (VList vs0) st = (Ok vs0, st)) by done.
  run Hiter. rewrite (add_course_keys _ _ _ _ Hvss).
  destruct (parse_all (concat vss)); [|done].
  by rewrite (right_id_L ∅ (∪)).
Qed.

(** ** More on the instructor cache *)

Lemma resolve_run v st :
  resolve v st =
    (match resolved (heap st) v with
     | Some c => Ok c
     | None => Err ReferenceError
     end, st).
Proof. destruct v; try done. simpl. unfold load. by destruct (_ !! _). Qed.

(** X8.  [_get_program_instructors] never changes the store, and of the
    cache it writes at most the entry of its own program: every other
    entry is after the call what it was before, whether the call returns
    or raises. *)
Theorem instructors_touch_own_entry_only (program : value) (st : state) :
  let st' := (_get_program_instructors program st).2 in
  heap st' = heap st ∧
  ∀ k, cache_key_of (heap st) program ≠ Some k →
       cache st' !! k = cache st !! k.
Proof.
  split; [apply get_program_instructors_heap|].
  intros k Hk. unfold _get_program_instructors, cache_key_of in *.
  unfold dict_get, py_format. rewrite !run_bind, resolve_run.
  destruct (resolved (heap st) program) as [c|]; [|done].
  destruct c; try done. cbn [fst snd mret M_ret].
  rewrite !run_bind, resolve_run.
  destruct (resolved (heap st) (default VNone (dict_lookup (KStr "uuid") kvs)))
    as [c|]; [|done].
  cbn [mret M_ret]. cbv zeta.
  set (ck := "program.instructors." ++ py_str c) in *.
  rewrite run_bind. unfold cache_get at 1.
  set (st0 := {| heap := heap st; cache := cache st;
                 events := events st ++ [EvCacheGet ck] |}).
  rewrite run_bind,
    (reads_run (truthy (default VNone (cache st !! ck))) st0)
    by apply reads_truthy.
  destruct (truthy (default VNone (cache st !! ck)) st0).1 as [[]|]; try done.
  cbn [negb]. rewrite run_bind,
    (reads_run (collect_program_instructors program) st0)
    by apply reads_collect_program_instructors.
  destruct (collect_program_instructors program st0).1; [|done].
  simpl. apply lookup_insert_ne. intros <-. by destruct Hk.
Qed.

(** ** One type per name *)

Lemma get_program_type_find n st st1 ts :
  get_program_types st = (Ok (VList ts), st1) →
  Forall (λ t, readable (heap st) t "name") ts →
  get_program_type (VStr n) st =
    (match find (field_is (heap st) "name" n) ts with
     | Some t => Ok t
     | None => Err StopIteration
     end, st1).
Proof.
  intros Hrun Hts. unfold get_program_type. run Hrun.
  destruct (get_program_types_same_data _ _ _ Hrun) as [Hheap _].
  assert (Hiter : py_iter (VList ts) st1 = (Ok ts, st1)) by done.
  run Hiter.
  apply (next_matching_find _ (field_is (heap st) "name" n)).
  eapply Forall_impl; [exact Hts|]. intros t Hread. simpl.
  pose proof Hread as [c Hc].
  destruct (field (heap st) t "name") as [v|] eqn:Hv; [|done].
  run (getitem_field t "name" v st1 ltac:(by rewrite Hheap)).
  by apply py_eq_field_is with (obj := t) (k := "name").
Qed.

Lemma find_None_forall {A} (p : A → bool) (l : list A) :
  (∀ x, x ∈ l → p x = false) → find p l = None.
Proof.
  induction l as [|x l IH]; intros Hall; [done|]. simpl.
  rewrite (Hall x) by apply list_elem_of_here.
  apply IH. intros y Hy. by apply Hall, list_elem_of_further.
Qed.

Lemma find_reverse_unique {A} (p : A → bool) (l : list A) :
  (∀ i j x y, l !! i = Some x → l !! j = Some y →
              p x = true → p y = true → i = j) →
  find p (reverse l) = find p l.
Proof.
  induction l as [|x l IH]; intros Huniq; [done|].
  rewrite reverse_cons, find_snoc, IH.
  - simpl. destruct (p x) eqn:Hx; [|by destruct (find p l)].
    rewrite find_None_forall; [done|].
    intros y [j Hj]%list_elem_of_lookup.
    destruct (p y) eqn:Hy; [|done].
    by specialize (Huniq 0%nat (S j) x y eq_refl Hj Hx Hy).
  - intros i j y z Hi Hj Hy Hz.
    by specialize (Huniq (S i) (S j) y z Hi Hj Hy Hz) as [= ->].
Qed.

(** X9.  When no two program types have the same name, the two ways of
    looking a type up agree: what [get_program_type(tn)] returns, the
    first type of that name, is the type that [get_programs_with_type]
    attaches to a program of type [tn], the last type of that name; and
    [get_program_type] raises [StopIteration] exactly for the names the
    dict of [get_programs_with_type] does not hold. *)
Theorem type_lookups_agree (tn : string) (st st1 : state) (ts : list value) :
  get_program_types st = (Ok (VList ts), st1) →
  Forall (is_program_type (heap st)) ts →
  NoDup ((λ t, field (heap st) t "name") <$> ts) →
  get_program_type (VStr tn) st =
    (match type_named (heap st) ts tn with
     | Some t => Ok t
     | None => Err StopIteration
     end, st1).
Proof.
  intros Hrun Hts Hnodup.
  rewrite (get_program_type_find tn st st1 ts Hrun).
  - unfold type_named. rewrite find_reverse_unique; [done|].
    intros i j x y Hi Hj Hx Hy.
    rewrite Forall_forall in Hts.
    destruct (Hts x) as [kx Hkx]; [by eapply list_elem_of_lookup_2|].
    destruct (Hts y) as [ky Hky]; [by eapply list_elem_of_lookup_2|].
    rewrite (field_is_of_key _ _ kx) in Hx by done.
    rewrite (field_is_of_key _ _ ky) in Hy by done.
    apply bool_decide_eq_true in Hx, Hy. subst kx ky.
    eapply NoDup_lookup; [exact Hnodup| |].
    + rewrite list_lookup_fmap, Hi. simpl. by rewrite Hkx.
    + rewrite list_lookup_fmap, Hj. simpl. by rewrite Hky.
  - eapply Forall_impl; [exact Hts|]. intros t [k Hk].
    unfold readable. rewrite Hk. simpl. rewrite resolved_of_key. eauto.
Qed.

(** ** Programs without a slug, instructors with distinct names *)

Lemma next_matching_raises cond pre x post dflt st e st' :
  Forall (λ y, cond y st = (Ok false, st)) pre →
  cond x st = (Err e, st') →
  next_matching cond (pre ++ x :: post) dflt st = (Err e, st').
Proof.
  intros Hpre Hx. induction Hpre as [|y pre Hy _ IH]; simpl.
  - by rewrite (run_bind_err _ _ _ _ _ Hx).
  - by rewrite (run_bind_ok _ _ _ _ _ Hy).
Qed.

(** X10.  The search by marketing slug reads the slug of every program up
    to the first match: a program without [marketing_slug] that comes
    before any program of the slug makes
    [get_program_with_type_and_instructors] raise [KeyError], whatever
    follows it in the list. *)
Theorem slug_search_needs_slugs (s : string) (st st1 : state)
    (pre post : list value) (p : value) (kvs : dict) :
  get_programs VNone VNone st = (Ok (VList (pre ++ p :: post)), st1) →
  Forall (λ q, readable (heap st) q "marketing_slug" ∧
               field_is (heap st) "marketing_slug" s q = false) pre →
  resolved (heap st) p = Some (VDict kvs) →
  dict_lookup (KStr "marketing_slug") kvs = None →
  get_program_with_type_and_instructors (VStr s) st
    = (Err (KeyError (VStr "marketing_slug")), st1).
Proof.
  intros Hprograms Hpre Hp Hslug.
  unfold get_program_with_type_and_instructors.
  destruct (get_programs_same_data _ _ _ _ _ Hprograms) as [Hheap1 _].
  run Hprograms.
  assert (Hiter : py_iter (VList (pre ++ p :: post)) st1
                  = (Ok (pre ++ p :: post)%list, st1)) by done.
  run Hiter.
  assert (Hnext :
    next_matching
      (λ program, slug ← getitem program "marketing_slug";
                  py_eq recursion_limit slug (VStr s))
      (pre ++ p :: post) (Some VNone) st1
    = (Err (KeyError (VStr "marketing_slug")), st1)).
  { apply next_matching_raises.
    - eapply Forall_impl; [exact Hpre|]. intros q [Hread Hq]. simpl.
      pose proof Hread as [c Hc].
      destruct (field (heap st) q "marketing_slug") as [v|] eqn:Hv; [|done].
      run (getitem_field q "marketing_slug" v st1 ltac:(by rewrite Hheap1)).
      rewrite <-Hq.
      by apply py_eq_field_is with (obj := q) (k := "marketing_slug").
    - unfold getitem. rewrite !run_bind, resolve_run, Hheap1, Hp.
      cbn [fst snd]. by rewrite Hslug. }
  by rewrite (run_bind_err _ _ _ _ _ Hnext).
Qed.

Lemma fmap_NoDup_inj {A B} (f : A → B) (l : list A) x y :
  NoDup (f <$> l) → x ∈ l → y ∈ l → f x = f y → x = y.
Proof.
  intros Hnodup [i Hi]%list_elem_of_lookup [j Hj]%list_elem_of_lookup Hxy.
  assert (i = j) as ->.
  { eapply NoDup_lookup; [exact Hnodup| |].
    - by rewrite list_lookup_fmap, Hi.
    - rewrite list_lookup_fmap, Hj. simpl. by rewrite Hxy. }
  congruence.
Qed.

Lemma instructor_stream_named keys :
  Forall course_ok keys →
  Forall (λ i, is_Some (instructor_name i)) (instructor_stream keys).
Proof.
  intros Hkeys. unfold instructor_stream.
  induction Hkeys as [|k keys (instructors & Hk & His) _ IH]; [constructor|].
  rewrite fmap_cons. cbn [concat]. apply Forall_app. split; [|exact IH].
  by rewrite Hk.
Qed.

(** X11.  When the instructors of the course runs of a program all have
    different names, a cache miss returns them all: the list returned is
    a rearrangement of the instructors of the course runs. *)
Theorem distinct_instructors_all_returned (program : value) (ck : string)
    (keys : gset CourseKey) (st : state) :
  cache_key_of (heap st) program = Some ck →
  is_truthy (default VNone (cache st !! ck)) = false →
  get_program_course_run_keys program (after_cache_get ck st)
    = (Ok keys, after_cache_get ck st) →
  (∀ k, k ∈ keys → course_ok k) →
  NoDup (instructor_name <$> instructor_stream (set_iter keys)) →
  ∃ instructors,
    _get_program_instructors program st
      = (Ok (VList instructors),
         after_cache_set ck (VList instructors) (after_cache_get ck st)) ∧
    instructors ≡ₚ instructor_stream (set_iter keys).
Proof.
  intros Hck Hfalsy Hkeys Hok Hdistinct.
  destruct (collect_program_instructors_run program keys _ Hkeys Hok)
    as (Hcollect & Hfiled & Hlookup).
  assert (Hnamed : Forall (λ i, is_Some (instructor_name i))
                     (instructor_stream (set_iter keys))).
  { apply instructor_stream_named, Forall_forall.
    intros k Hk. by apply Hok, set_iter_spec. }
  exists (dict_values (gathered [] (set_iter keys))). split.
  - rewrite (get_program_instructors_run program ck st Hck).
    + by rewrite Hfalsy, Hcollect.
    + intros l Hl. by rewrite Hl in Hfalsy.
  - apply NoDup_Permutation.
    + eapply NoDup_fmap_1, dict_values_names, Hfiled.
    + by eapply NoDup_fmap_1.
    + intros i. rewrite elem_of_dict_values by done. split.
      * intros (n & Hn). rewrite Hlookup in Hn.
        apply last_Some in Hn as (l' & Hl').
        assert (Hin : i ∈ filter (has_name n) (instructor_stream (set_iter keys))).
        { rewrite Hl'. apply elem_of_app. right. apply list_elem_of_here. }
        by apply list_elem_of_filter in Hin as [_ ?].
      * intros Hi. exists (name_of i). rewrite Hlookup.
        rewrite Forall_forall in Hnamed.
        pose proof (name_of_named i (Hnamed i Hi)) as Hname.
        assert (Hin : i ∈ filter (has_name (name_of i))
                            (instructor_stream (set_iter keys))).
        { by apply list_elem_of_filter. }
        destruct (last (filter (has_name (name_of i))
                          (instructor_stream (set_iter keys)))) as [j|] eqn:Hlast.
        -- f_equal. apply last_Some in Hlast as (l' & Hl').
           assert (Hj : j ∈ filter (has_name (name_of i))
                              (instructor_stream (set_iter keys))).
           { rewrite Hl'. apply elem_of_app. right. apply list_elem_of_here. }
           apply list_elem_of_filter in Hj as [Hjname Hj].
           apply (fmap_NoDup_inj instructor_name _ _ _ Hdistinct Hj Hi).
           unfold has_name in Hjname. by rewrite Hjname, Hname.
        -- apply last_None in Hlast. rewrite Hlast in Hin.
           by apply elem_of_nil in Hin.
Qed.

Lemma add_course_instructors_bad_info d k st :
  bad_instructor_info k →
  add_course_instructors d k st = (Err AttributeError, st).
Proof.
  intros (descriptor & v & Hk & Hinfo & Hv).
  unfold add_course_instructors. rewrite Hk, Hinfo. simpl.
  by destruct v.
Qed.

Lemma gather_bad_info d keys st :
  Forall (λ k, course_ok k ∨ bad_instructor_info k) keys →
  Exists bad_instructor_info keys →
  for_each add_course_instructors d keys st = (Err AttributeError, st).
Proof.
  intros Hall. revert d.
  induction Hall as [|k keys Hk _ IH]; intros d Hex;
    [by apply Exists_nil in Hex|].
  cbn [for_each]. destruct Hk as [(instructors & Hk & His)|Hbad].
  - run (add_course_instructors_run d k instructors st Hk His).
    apply IH. apply Exists_cons in Hex as [(descriptor & v & Hk' & Hinfo & Hv)|?];
      [|done].
    unfold course_instructors in Hk. rewrite Hk', Hinfo in Hk.
    by destruct v.
  - by rewrite (run_bind_err _ _ _ _ _ (add_course_instructors_bad_info d k st Hbad)).
Qed.

(** X12.  An [instructor_info] that is there but is no mapping, [None]
    for one, is not skipped like a missing one: when a course run of the
    program has such a descriptor and the others are in order, a cache
    miss raises [AttributeError], no instructor is returned and nothing is
    written to the cache. *)
Theorem bad_instructor_info_fails (program : value) (ck : string)
    (keys : gset CourseKey) (st : state) :
  cache_key_of (heap st) program = Some ck →
  is_truthy (default VNone (cache st !! ck)) = false →
  get_program_course_run_keys program (after_cache_get ck st)
    = (Ok keys, after_cache_get ck st) →
  (∀ k, k ∈ keys → course_ok k ∨ bad_instructor_info k) →
  (∃ k, k ∈ keys ∧ bad_instructor_info k) →
  _get_program_instructors program st
    = (Err AttributeError, after_cache_get ck st).
Proof.
  intros Hck Hfalsy Hkeys Hall (k & Hk & Hbad).
  rewrite (get_program_instructors_run program ck st Hck).
  2:{ intros l Hl. by rewrite Hl in Hfalsy. }
  rewrite Hfalsy.
  assert (Hcollect : collect_program_instructors program (after_cache_get ck st)
                     = (Err AttributeError, after_cache_get ck st)).
  { unfold collect_program_instructors. run Hkeys.
    assert (Hloop : for_each add_course_instructors [] (set_iter keys)
                      (after_cache_get ck st)
                    = (Err AttributeError, after_cache_get ck st)).
    { apply gather_bad_info.
      - apply Forall_forall. intros k' Hk'. by apply Hall, set_iter_spec.
      - apply Exists_exists. exists k. split; [by apply set_iter_spec|done]. }
    by rewrite (run_bind_err _ _ _ _ _ Hloop). }
  by rewrite Hcollect.
Qed.

(** X13.  The cache entry of a program is named after its [uuid] alone,
    and a program whose [uuid] is missing or [None] gets the key
    [program.instructors.None].  So all such programs share one entry:
    once a call for one of them has cached a list that is not empty, a
    call for another one returns that list, whatever its own course runs
    are, and gathers nothing. *)
Theorem programs_without_uuid_share_instructors (p q : value)
    (kvs_p kvs_q : dict) (st : state) (instructors : list value) :
  resolved (heap st) p = Some (VDict kvs_p) →
  resolved (heap st) q = Some (VDict kvs_q) →
  default VNone (dict_lookup (KStr "uuid") kvs_p) = VNone →
  default VNone (dict_lookup (KStr "uuid") kvs_q) = VNone →
  is_truthy (default VNone (cache st !! "program.instructors.None")) = false →
  (collect_program_instructors p
     (after_cache_get "program.instructors.None" st)).1
    = Ok (VList instructors) →
  instructors ≠ [] →
  _get_program_instructors q (_get_program_instructors p st).2
  = (Ok (VList instructors),
     after_cache_get "program.instructors.None"
       (after_cache_set "program.instructors.None" (VList instructors)
          (after_cache_get "program.instructors.None" st))).
Proof.
  intros Hp Hq Hup Huq Hfalsy Hcollect Hne.
  assert (Hck : ∀ h m kvs,
    resolved h m = Some (VDict kvs) →
    default VNone (dict_lookup (KStr "uuid") kvs) = VNone →
    cache_key_of h m = Some "program.instructors.None").
  { intros h m kvs Hm Hu. unfold cache_key_of. by rewrite Hm, Hu. }
  rewrite (get_program_instructors_run p _ st (Hck _ _ _ Hp Hup)).
  2:{ intros l Hl. by rewrite Hl in Hfalsy. }
  rewrite Hfalsy, Hcollect. cbn [snd].
  rewrite (get_program_instructors_run q "program.instructors.None").
  - cbn [cache after_cache_set]. rewrite lookup_insert_eq. simpl.
    by destruct instructors.
  - by apply Hck with kvs_q.
  - intros l. cbn [cache after_cache_set]. by rewrite lookup_insert_eq.
Qed.

(** X14.  The uuid of a program is read with [get], its courses with
    [[]]: on a cache miss a program without [courses] makes
    [_get_program_instructors] raise [KeyError], after the cache has been
    read and with nothing written to it. *)
Theorem instructors_need_courses (program : value) (kvs : dict) (ck : string)
    (st : state) :
  resolved (heap st) program = Some (VDict kvs) →
  cache_key_of (heap st) program = Some ck →
  is_truthy (default VNone (cache st !! ck)) = false →
  dict_lookup (KStr "courses") kvs = None →
  _get_program_instructors program st
    = (Err (KeyError (VStr "courses")), after_cache_get ck st).
Proof.
  intros Hprogram Hck Hfalsy Hcourses.
  rewrite (get_program_instructors_run program ck st Hck).
  2:{ intros l Hl. by rewrite Hl in Hfalsy. }
  rewrite Hfalsy.
  assert (Hcollect : collect_program_instructors program (after_cache_get ck st)
                     = (Err (KeyError (VStr "courses")), after_cache_get ck st)).
  { unfold collect_program_instructors, get_program_course_run_keys, getitem.
    rewrite !run_bind, resolve_run. cbn [heap after_cache_get].
    rewrite Hprogram. cbn [fst snd]. by rewrite Hcourses. }
  by rewrite Hcollect.
Qed.
(** ** The instructors of a program, from its course runs *)

Lemma get_program_course_run_keys_run program c vs ks st :
  resolved (heap st) program = Some c →
  program_keys c = Some vs →
  parse_all vs = Ok ks →
  get_program_course_run_keys program st = (Ok (list_to_set ks), st).
Proof.
  intros Hprogram Hkeys Hparse. unfold get_program_course_run_keys.
  destruct c as [| | | |kvs|]; try done. simpl in Hkeys.
  destruct (dict_lookup (KStr "courses") kvs) as [[]|] eqn:Hcourses; try done.
  destruct (mapM course_keys vs0) as [vss|] eqn:Hvss; [|done].
  injection Hkeys as <-.
  assert (Hget : getitem program "courses" st = (Ok (VList vs0), st)).
  { apply getitem_field. unfold field. by rewrite Hprogram. }
  run Hget.
  assert (Hiter : py_iter (VList vs0) st = (Ok vs0, st)) by done.
  run Hiter. rewrite (add_course_keys _ _ _ _ Hvss), Hparse.
  by rewrite (right_id_L ∅ (∪)).
Qed.

Lemma last_filter_Some {A} (P : A → Prop) `{!∀ x, Decision (P x)} l y :
  last (filter P l) = Some y → y ∈ l ∧ P y.
Proof.
  intros Hlast. apply last_Some in Hlast as (l' & Hl').
  assert (Hin : y ∈ filter P l).
  { rewrite Hl'. apply elem_of_app. right. apply list_elem_of_here. }
  apply list_elem_of_filter in Hin as [? ?]. by split.
Qed.

Lemma last_filter_is_Some {A} (P : A → Prop) `{!∀ x, Decision (P x)} l y :
  y ∈ l → P y → is_Some (last (filter P l)).
Proof.
  intros Hy HP.
  assert (Hin : y ∈ filter P l) by by apply list_elem_of_filter.
  destruct (last (filter P l)) as [z|] eqn:Hlast; [by eexists|].
  apply last_None in Hlast. rewrite Hlast in Hin.
  by apply elem_of_nil in Hin.
Qed.

Lemma elem_of_last_of_each_name l i : i ∈ last_of_each_name l → i ∈ l.
Proof.
  induction l as [|x l IH]; simpl; [done|].
  case_decide.
  - intros Hi. apply list_elem_of_further. by apply IH.
  - intros [->|Hi]%elem_of_cons.
    + apply list_elem_of_here.
    + apply list_elem_of_further. by apply IH.
Qed.

Lemma last_of_each_name_names l :
  NoDup (instructor_name <$> last_of_each_name l).
Proof.
  induction l as [|x l IH]; simpl; [constructor|].
  case_decide as Hx; [done|].
  rewrite fmap_cons. apply NoDup_cons. split; [|done].
  intros Hin. apply Hx.
  apply list_elem_of_fmap in Hin as (y & Hy & Hin).
  apply list_elem_of_fmap. exists y. split; [done|].
  by apply elem_of_last_of_each_name.
Qed.

Lemma last_of_each_name_spec l i :
  Forall (λ i, is_Some (instructor_name i)) l →
  i ∈ last_of_each_name l ↔ ∃ n, last (filter (has_name n) l) = Some i.
Proof.
  induction 1 as [|x l [nx Hnx] Hl IH]; simpl.
  - split; [by intros ?%elem_of_nil|by intros [? ?]].
  - assert (Hlater : instructor_name x ∈ instructor_name <$> l
                     ↔ is_Some (last (filter (has_name nx) l))).
    { split.
      - intros (y & Hy & Hin)%list_elem_of_fmap.
        apply (last_filter_is_Some _ _ y); [done|].
        unfold has_name. by rewrite <-Hy.
      - intros [y Hy]. apply last_filter_Some in Hy as [Hin Hy].
        apply list_elem_of_fmap. exists y. split; [|done].
        unfold has_name in Hy. by rewrite Hy. }
    case_decide as Hx.
    + rewrite IH. split; intros [n Hn]; exists n.
      * by rewrite last_filter_cons, Hn.
      * rewrite last_filter_cons in Hn.
        destruct (last (filter (has_name n) l)) as [j|] eqn:Hlast; [done|].
        case_decide as Hname; [|done].
        unfold has_name in Hname. rewrite Hnx in Hname.
        injection Hname as <-.
        apply Hlater in Hx as [j Hj]. by rewrite Hj in Hlast.
    + rewrite elem_of_cons, IH. split.
      * intros [->|[n Hn]].
        -- exists nx. rewrite last_filter_cons.
           destruct (last (filter (has_name nx) l)) as [j|] eqn:Hlast.
           ++ destruct Hx. apply Hlater. by eexists.
           ++ by rewrite decide_True.
        -- exists n. by rewrite last_filter_cons, Hn.
      * intros [n Hn]. rewrite last_filter_cons in Hn.
        destruct (last (filter (has_name n) l)) as [j|] eqn:Hlast.
        -- right. exists n. by rewrite Hlast.
        -- case_decide; [|done]. left. by injection Hn.
Qed.

(** The cache miss of [_get_program_instructors] for a program whose
    course runs are all there and in order. *)
Lemma get_program_instructors_miss program c ck vs ks st :
  resolved (heap st) program = Some c →
  program_keys c = Some vs →
  parse_all vs = Ok ks →
  cache_key_of (heap st) program = Some ck →
  is_truthy (default VNone (cache st !! ck)) = false →
  (∀ k, k ∈ ks → course_ok k) →
  let stream := instructor_stream (set_iter (list_to_set ks)) in
  ∃ instructors,
    _get_program_instructors program st
      = (Ok (VList instructors),
         after_cache_set ck (VList instructors) (after_cache_get ck st)) ∧
    Forall (λ i, is_Some (instructor_name i)) stream ∧
    NoDup (instructor_name <$> instructors) ∧
    (∀ i, i ∈ instructors ↔ ∃ n, last (filter (has_name n) stream) = Some i) ∧
    instructors ≡ₚ last_of_each_name stream.
Proof.
  intros Hprogram Hvs Hks Hck Hfalsy Hok stream.
  assert (Hkeys : get_program_course_run_keys program (after_cache_get ck st)
                  = (Ok (list_to_set ks), after_cache_get ck st))
    by by apply get_program_course_run_keys_run with c vs.
  assert (Hok' : ∀ k, k ∈ (list_to_set ks : gset CourseKey) → course_ok k).
  { intros k Hk. apply Hok. by apply elem_of_list_to_set in Hk. }
  destruct (collect_program_instructors_run program _ _ Hkeys Hok')
    as (Hcollect & Hfiled & Hlookup).
  assert (Hnamed : Forall (λ i, is_Some (instructor_name i)) stream).
  { apply instructor_stream_named, Forall_forall.
    intros k Hk. by apply Hok', set_iter_spec. }
  assert (Hin : ∀ i,
    i ∈ dict_values (gathered [] (set_iter (list_to_set ks)))
    ↔ ∃ n, last (filter (has_name n) stream) = Some i).
  { intros i. rewrite elem_of_dict_values by done.
    split; intros [n Hn]; exists n; by rewrite ?Hlookup, <-?Hlookup in *. }
  exists (dict_values (gathered [] (set_iter (list_to_set ks)))).
  split_and!; [|done|by apply dict_values_names|done|].
  - rewrite (get_program_instructors_run program ck st Hck).
    + by rewrite Hfalsy, Hcollect.
    + intros l Hl. by rewrite Hl in Hfalsy.
  - apply NoDup_Permutation.
    + eapply NoDup_fmap_1, dict_values_names, Hfiled.
    + eapply NoDup_fmap_1, last_of_each_name_names.
    + intros i. by rewrite Hin, last_of_each_name_spec.
Qed.

(** C3.  On a cache miss, [_get_program_instructors(program)] goes
    through the keys of the course runs that the program lists, each key
    once, in the iteration order of their set, and returns one entry for
    each name among the instructors of these course runs: no two entries
    have the same name, an instructor is returned exactly when it is the
    last one of its name in that order, and so the list is the stream of
    instructors with the last of each name kept, up to the order of the
    entries. *)
Theorem program_instructors_last_write_wins (program c : value) (ck : string)
    (vs : list value) (ks : list CourseKey) (st : state) :
  resolved (heap st) program = Some c →
  program_keys c = Some vs →
  parse_all vs = Ok ks →
  cache_key_of (heap st) program = Some ck →
  is_truthy (default VNone (cache st !! ck)) = false →
  (∀ k, k ∈ ks → course_ok k) →
  let order := set_iter (list_to_set ks) in
  let stream := instructor_stream order in
  ∃ instructors,
    _get_program_instructors program st
      = (Ok (VList instructors),
         after_cache_set ck (VList instructors) (after_cache_get ck st)) ∧
    (NoDup order ∧ ∀ k, k ∈ order ↔ k ∈ ks) ∧
    NoDup (instructor_name <$> instructors) ∧
    (∀ i, i ∈ instructors ↔ ∃ n, last (filter (has_name n) stream) = Some i) ∧
    instructors ≡ₚ last_of_each_name stream.
Proof.
  intros Hprogram Hvs Hks Hck Hfalsy Hok order stream.
  destruct (get_program_instructors_miss program c ck vs ks st)
    as (instructors & Hrun & _ & Hnames & Hin & Hperm); try done.
  exists instructors. split_and!; try done.
  - apply set_iter_spec.
  - intros k. unfold order. destruct (set_iter_spec (list_to_set ks)) as [_ ->].
    apply elem_of_list_to_set.
Qed.

Lemma elem_of_concat {A} (x : A) (ls : list (list A)) (l : list A) :
  l ∈ ls → x ∈ l → x ∈ concat ls.
Proof.
  intros Hl Hx. induction Hl; simpl; apply elem_of_app; auto.
Qed.

Lemma contributes_false k :
  contributes k = false → course_instructors k = Some [].
Proof.
  unfold contributes, course_instructors.
  destruct (get_course k) as [descriptor|]; [|done].
  destruct (instructor_info descriptor); [|done].
  intros Hk. apply bool_decide_eq_false in Hk. destruct Hk. by eexists.
Qed.

Lemma instructor_stream_contributing keys :
  instructor_stream keys
  = instructor_stream (filter (λ k, contributes k = true) keys).
Proof.
  unfold instructor_stream. induction keys as [|k keys IH]; [done|].
  rewrite filter_cons, fmap_cons. cbn [concat]. case_decide as Hk.
  - rewrite fmap_cons. cbn [concat]. by rewrite IH.
  - apply not_true_is_false in Hk. by rewrite (contributes_false k Hk), IH.
Qed.

(** C8.  A course-run key for which the module store has no descriptor is
    passed over, and so is one whose descriptor has no [instructor_info]:
    nothing is asked of these course runs, [_get_program_instructors] does
    not fail on them, and what it returns is what the remaining course runs
    give: the instructors of the remaining course runs with the last of
    each name kept, so that every instructor of a remaining course run has
    an entry of its name in the result. *)
Theorem missing_descriptors_skipped (program c : value) (ck : string)
    (vs : list value) (ks : list CourseKey) (st : state) :
  resolved (heap st) program = Some c →
  program_keys c = Some vs →
  parse_all vs = Ok ks →
  cache_key_of (heap st) program = Some ck →
  is_truthy (default VNone (cache st !! ck)) = false →
  (∀ k, k ∈ ks → contributes k = true → course_ok k) →
  let remaining :=
    filter (λ k, contributes k = true) (set_iter (list_to_set ks)) in
  ∃ instructors,
    _get_program_instructors program st
      = (Ok (VList instructors),
         after_cache_set ck (VList instructors) (after_cache_get ck st)) ∧
    instructors ≡ₚ last_of_each_name (instructor_stream remaining) ∧
    ∀ k i, k ∈ ks → contributes k = true →
           i ∈ default [] (course_instructors k) →
           ∃ j, j ∈ instructors ∧ instructor_name j = instructor_name i.
Proof.
  intros Hprogram Hvs Hks Hck Hfalsy Hok remaining.
  assert (Hok' : ∀ k, k ∈ ks → course_ok k).
  { intros k Hk. destruct (contributes k) eqn:Hc; [by apply Hok|].
    exists []. split; [by apply contributes_false|constructor]. }
  destruct (get_program_instructors_miss program c ck vs ks st)
    as (instructors & Hrun & Hnamed & _ & Hin & Hperm); try done.
  cbv zeta in Hnamed, Hin, Hperm.
  exists instructors. split_and!; [done| |].
  - unfold remaining. by rewrite <-instructor_stream_contributing.
  - intros k i Hk Hc Hi.
    assert (Hstream : i ∈ instructor_stream (set_iter (list_to_set ks))).
    { unfold instructor_stream.
      apply (elem_of_concat _ _ (default [] (course_instructors k))); [|done].
      apply list_elem_of_fmap. exists k. split; [done|].
      apply set_iter_spec. by apply elem_of_list_to_set. }
    rewrite Forall_forall in Hnamed.
    destruct (Hnamed i Hstream) as [n Hn].
    destruct (last_filter_is_Some (has_name n) _ i Hstream Hn) as [j Hj].
    exists j. split; [apply Hin; by exists n|].
    apply last_filter_Some in Hj as [_ Hj]. unfold has_name in Hj.
    by rewrite Hj, Hn.
Qed.

(** C10.  [_get_program_instructors] and its cache entry.  When the entry
    is absent or holds a falsy value, an empty list that an earlier call
    cached in particular, the instructors are gathered again from the
    module store, over the course runs that the program lists, and the
    list gathered is returned and written over the entry.  Only when the
    entry holds a truthy value, a list that is not empty, is it returned
    as it is: the course runs are not read, nothing is gathered and
    nothing is written. *)
Theorem instructors_cache_miss_on_falsy (program : value) (ck : string)
    (st : state) :
  cache_key_of (heap st) program = Some ck →
  (∀ l, default VNone (cache st !! ck) ≠ VRef l) →
  let cached := default VNone (cache st !! ck) in
  let st0 := after_cache_get ck st in
  (is_truthy cached = false →
   ∀ c vs ks,
     resolved (heap st) program = Some c →
     program_keys c = Some vs →
     parse_all vs = Ok ks →
     (∀ k, k ∈ ks → course_ok k) →
     ∃ instructors,
       _get_program_instructors program st
         = (Ok (VList instructors),
            after_cache_set ck (VList instructors) st0) ∧
       instructors
         ≡ₚ last_of_each_name (instructor_stream (set_iter (list_to_set ks))) ∧
       cache (_get_program_instructors program st).2 !! ck
         = Some (VList instructors)) ∧
  (is_truthy cached = true →
   _get_program_instructors program st = (Ok cached, st0)).
Proof.
  intros Hck Hcached cached st0. split.
  - intros Hfalsy c vs ks Hprogram Hvs Hks Hok.
    destruct (get_program_instructors_miss program c ck vs ks st)
      as (instructors & Hrun & _ & _ & _ & Hperm); try done.
    exists instructors. split_and!; [done|done|].
    rewrite Hrun. cbn [snd cache after_cache_set]. apply lookup_insert_eq.
  - intros Htruthy.
    pose proof (get_program_instructors_run program ck st Hck Hcached) as Hrun.
    fold cached st0 in Hrun. by rewrite Htruthy in Hrun.
Qed.
End catalog.

(** ** The cache across changes of the module store *)

(** X15.  Once a call has cached a list of instructors that is not empty,
    a later call for the same program returns that list as it is, whatever
    the module store has become in between: changes made to the
    instructors in Studio are not seen as long as the entry is there. *)
Theorem cached_instructors_outlive_changes {CourseKey : Type}
    `{Countable CourseKey}
    (CourseKey_from_string : value → result CourseKey)
    (get_course get_course' : CourseKey → option CourseDescriptor)
    (course_key_hash : CourseKey → nat) (key_hash : key → nat)
    (py_repr : value → string)
    (program : value) (ck : string) (st : state) (instructors : list value) :
  cache_key_of py_repr (heap st) program = Some ck →
  is_truthy (default VNone (cache st !! ck)) = false →
  (collect_program_instructors CourseKey_from_string get_course
     course_key_hash key_hash program (after_cache_get ck st)).1
    = Ok (VList instructors) →
  instructors ≠ [] →
  let first_call :=
    _get_program_instructors CourseKey_from_string get_course
      course_key_hash key_hash py_repr program st in
  first_call.1 = Ok (VList instructors) ∧
  _get_program_instructors CourseKey_from_string get_course'
    course_key_hash key_hash py_repr program first_call.2
  = (Ok (VList instructors), after_cache_get ck first_call.2).
Proof.
  intros Hck Hfalsy Hcollect Hne first_call.
  assert (Hfirst : first_call
                   = (Ok (VList instructors),
                      after_cache_set ck (VList instructors)
                        (after_cache_get ck st))).
  { unfold first_call.
    rewrite (get_program_instructors_run _ get_course _ _ _ program ck st Hck).
    - by rewrite Hfalsy, Hcollect.
    - intros l Hl. by rewrite Hl in Hfalsy. }
  rewrite Hfirst. split; [done|]. cbn [snd].
  rewrite (get_program_instructors_run _ get_course' _ _ _ program ck
             (after_cache_set ck (VList instructors) (after_cache_get ck st))
             Hck).
  - cbn [cache after_cache_set]. rewrite lookup_insert_eq. simpl.
    by destruct instructors.
  - intros l. cbn [cache after_cache_set]. by rewrite lookup_insert_eq.
Qed.

(** ** The theorems on the sample catalog *)

Abbreviation sample_get_programs :=
  (get_programs sample_integration sample_users 3600 sample_build_token
     (sample_api sample_types)).
Abbreviation sample_get_program_types :=
  (get_program_types sample_integration sample_users 3600 sample_build_token
     (sample_api sample_types)).
Abbreviation sample_get_program_type :=
  (get_program_type 100 sample_integration sample_users 3600
     sample_build_token (sample_api sample_types)).
Abbreviation sample_get_programs_with_type types :=
  (get_programs_with_type 100 sample_integration sample_users 3600
     sample_build_token (sample_api types)).
Abbreviation sample_get_program_instructors :=
  (_get_program_instructors sample_from_string sample_get_course
     sample_hash sample_hash sample_repr).
Abbreviation sample_get_program_with_type_and_instructors :=
  (get_program_with_type_and_instructors 100 sample_integration sample_users
     3600 sample_build_token (sample_api sample_types) sample_from_string
     sample_get_course sample_hash sample_hash sample_repr).

(** The state after [get_programs()] and after [get_program_types()]. *)
Abbreviation after_programs := (sample_get_programs VNone VNone sample_state).2.
Abbreviation after_types := (sample_get_program_types after_programs).2.

Lemma fetchers_unavailable_witness :
  get_programs sample_disabled sample_users 3600 sample_build_token
    (sample_api sample_types) (VStr "uuid-1") VNone sample_state
  = (Ok (VList []), sample_state) ∧
  get_program_types sample_disabled sample_users 3600 sample_build_token
    (sample_api sample_types) sample_state
  = (Ok (VList []), sample_state).
Proof. apply fetchers_unavailable. left. reflexivity. Defined.

Lemma get_programs_request_witness :
  ∃ r, events (sample_get_programs (VStr "uuid-1") (VStr "MicroMasters")
                 sample_state).2 = [EvApi r] ∧
       req_resource r = "programs" ∧
       req_resource_id r = VStr "uuid-1" ∧
       req_cache_key r = Some "catalog.api.data.programs.MicroMasters".
Proof.
  eexists. split; [vm_compute; reflexivity|].
  pose proof (get_programs_request sample_integration sample_users 3600
                sample_build_token (sample_api sample_types)
                (Some "uuid-1") (Some "MicroMasters") sample_state _
                ltac:(vm_compute; reflexivity)) as (Hres & Hid & Hkey & _).
  split_and!; [exact Hres|exact Hid|exact Hkey].
Defined.

Lemma enrichment_keeps_originals_witness :
  field (heap (sample_get_programs_with_type sample_types None sample_state).2)
    (VRef 1%positive) "type" = Some (VStr "MicroMasters") ∧
  field (heap (sample_get_program_with_type_and_instructors
                 (VStr "data-science") sample_state).2)
    (VRef 1%positive) "instructors" = None.
Proof.
  pose proof (enrichment_keeps_originals 100 sample_integration sample_users
                3600 sample_build_token (sample_api sample_types)
                sample_from_string sample_get_course sample_hash sample_hash
                sample_repr None (VStr "data-science") sample_state 1%positive
                _ ltac:(vm_compute; reflexivity)) as (_ & Hfields & _).
  split.
  - rewrite (proj1 (Hfields "type")). reflexivity.
  - rewrite (proj2 (Hfields "instructors")). reflexivity.
Defined.

Lemma get_program_type_first_match_witness :
  sample_get_program_type (VStr "XSeries") sample_state
  = (Ok (sample_type "XSeries"), (sample_get_program_types sample_state).2).
Proof.
  apply (get_program_type_first_match 100 sample_integration sample_users 3600
           sample_build_token (sample_api sample_types) "XSeries" sample_state
           _ sample_types).
  - vm_compute. reflexivity.
  - repeat constructor; by eexists.
Defined.

Lemma sample_programs_ok :
  Forall (is_program 100 sample_heap) [VRef 1%positive; VRef 2%positive].
Proof.
  repeat (apply Forall_cons; split); [| |constructor];
    do 3 eexists; (split_and!; [reflexivity|vm_compute; reflexivity..]).
Qed.

Lemma sample_types_ok types :
  Forall (λ t, ∃ n, t = sample_type n) types →
  Forall (is_program_type sample_heap) types.
Proof.
  intros Hts. eapply Forall_impl; [exact Hts|].
  intros t [n ->]. by exists (KStr n).
Qed.

Lemma get_programs_with_type_spec_witness :
  ∃ rs st',
    sample_get_programs_with_type sample_types
      (type_filter (Some ["XSeries"])) sample_state = (Ok (VList rs), st') ∧
    events st' = events after_types ∧
    sample_heap ⊆ heap st' ∧ NoDup rs.
Proof.
  destruct (get_programs_with_type_spec 100 sample_integration sample_users
              3600 sample_build_token (sample_api sample_types)
              (Some ["XSeries"]) sample_state after_programs
              [VRef 1%positive; VRef 2%positive]
              ltac:(vm_compute; reflexivity)) as [_ Hsome].
  assert (Hne : [VRef 1%positive; VRef 2%positive] ≠ []) by discriminate.
  assert (Htypes : sample_get_program_types after_programs
                   = (Ok (VList sample_types), after_types))
    by (vm_compute; reflexivity).
  assert (Hts : Forall (is_program_type sample_heap) sample_types).
  { apply sample_types_ok. repeat constructor; by eexists. }
  assert (Hknown : Forall
            (λ p, included (Some ["XSeries"]) sample_heap p = true →
                  type_known sample_heap sample_types p = true)
            [VRef 1%positive; VRef 2%positive]).
  { apply Forall_cons; split; [intros _; vm_compute; reflexivity|].
    apply Forall_cons; split; [intros _; vm_compute; reflexivity|].
    constructor. }
  destruct (Hsome Hne after_types sample_types Htypes Hts sample_programs_ok
              Hknown)
    as (rs & st' & Hrun & Hevents & _ & Hsub & Hnodup & _).
  exists rs, st'. split_and!; [exact Hrun|exact Hevents|exact Hsub|exact Hnodup].
Defined.

Lemma get_programs_with_type_unknown_type_witness :
  ∃ tn,
    (sample_get_programs_with_type [sample_type "MicroMasters"]
       (type_filter None) sample_state).1 = Err (KeyError (VStr tn)) ∧
    type_named sample_heap [sample_type "MicroMasters"] tn = None.
Proof.
  apply (get_programs_with_type_unknown_type 100 sample_integration
           sample_users 3600 sample_build_token
           (sample_api [sample_type "MicroMasters"]) None sample_state
           (get_programs sample_integration sample_users 3600
              sample_build_token (sample_api [sample_type "MicroMasters"])
              VNone VNone sample_state).2
           (get_program_types sample_integration sample_users 3600
              sample_build_token (sample_api [sample_type "MicroMasters"])
              (get_programs sample_integration sample_users 3600
                 sample_build_token (sample_api [sample_type "MicroMasters"])
                 VNone VNone sample_state).2).2
           [VRef 1%positive; VRef 2%positive] [sample_type "MicroMasters"]).
  - vm_compute. reflexivity.
  - vm_compute. reflexivity.
  - apply sample_types_ok. repeat constructor; by eexists.
  - apply sample_programs_ok.
  - apply Exists_cons_tl, Exists_cons_hd. split; vm_compute; reflexivity.
Defined.

(** A state in which an empty list of instructors was cached before. *)
Definition sample_state_cached_empty : state :=
  {| heap := sample_heap;
     cache := {[ "program.instructors.uuid-1" := VList [] ]};
     events := [] |}.

(** A state in which a list of instructors that the module store no
    longer has was cached before. *)
Definition sample_state_cached_stale : state :=
  {| heap := sample_heap;
     cache := {[ "program.instructors.uuid-1" :=
                   VList [sample_instructor "Zed" "edX"] ]};
     events := [] |}.

Lemma sample_courses_ok k : course_ok sample_get_course k.
Proof.
  unfold course_ok, course_instructors, sample_get_course.
  repeat case_decide; eexists; (split; [reflexivity|]);
    repeat constructor; by eexists.
Qed.

Lemma program_instructors_last_write_wins_witness :
  ∃ instructors,
    sample_get_program_instructors (VRef 1%positive) sample_state
    = (Ok (VList instructors),
       after_cache_set "program.instructors.uuid-1" (VList instructors)
         (after_cache_get "program.instructors.uuid-1" sample_state)) ∧
    instructor_stream sample_get_course
      (set_iter sample_hash
         (list_to_set ["course-v1:edX+DS101+2017"; "course-v1:edX+DS102+2017"]))
    = [sample_instructor "Ann" "edX"; sample_instructor "Bob" "edX";
       sample_instructor "Ann" "MITx"] ∧
    instructors ≡ₚ [sample_instructor "Bob" "edX"; sample_instructor "Ann" "MITx"].
Proof.
  destruct (program_instructors_last_write_wins sample_from_string
              sample_get_course sample_hash sample_hash sample_repr
              (VRef 1%positive)
              (sample_program "uuid-1" "data-science" "MicroMasters"
                 ["course-v1:edX+DS101+2017"; "course-v1:edX+DS102+2017"])
              "program.instructors.uuid-1"
              [VStr "course-v1:edX+DS101+2017"; VStr "course-v1:edX+DS102+2017"]
              ["course-v1:edX+DS101+2017"; "course-v1:edX+DS102+2017"]
              sample_state)
    as (instructors & Hrun & _ & _ & _ & Hperm).
  - reflexivity.
  - reflexivity.
  - reflexivity.
  - vm_compute. reflexivity.
  - vm_compute. reflexivity.
  - intros k _. apply sample_courses_ok.
  - exists instructors. split; [exact Hrun|]. split; [vm_compute; reflexivity|].
    rewrite Hperm. vm_compute. reflexivity.
Defined.

Lemma missing_descriptors_skipped_witness :
  sample_get_course "course-v1:edX+GONE+2017" = None ∧
  sample_get_course "course-v1:edX+W1+2017"
    = Some {| instructor_info := None |} ∧
  ∃ instructors,
    sample_get_program_instructors (VRef 1%positive) sample_state_gaps
    = (Ok (VList instructors),
       after_cache_set "program.instructors.uuid-4" (VList instructors)
         (after_cache_get "program.instructors.uuid-4" sample_state_gaps)) ∧
    instructors ≡ₚ [sample_instructor "Ann" "edX"; sample_instructor "Bob" "edX"].
Proof.
  split; [reflexivity|]. split; [reflexivity|].
  destruct (missing_descriptors_skipped sample_from_string
              sample_get_course sample_hash sample_hash sample_repr
              (VRef 1%positive)
              (sample_program "uuid-4" "gaps" "XSeries"
                 ["course-v1:edX+DS101+2017"; "course-v1:edX+W1+2017";
                  "course-v1:edX+GONE+2017"])
              "program.instructors.uuid-4"
              [VStr "course-v1:edX+DS101+2017"; VStr "course-v1:edX+W1+2017";
               VStr "course-v1:edX+GONE+2017"]
              ["course-v1:edX+DS101+2017"; "course-v1:edX+W1+2017";
               "course-v1:edX+GONE+2017"]
              sample_state_gaps)
    as (instructors & Hrun & Hperm & _).
  - reflexivity.
  - reflexivity.
  - reflexivity.
  - vm_compute. reflexivity.
  - vm_compute. reflexivity.
  - intros k _ _. apply sample_courses_ok.
  - exists instructors. split; [exact Hrun|].
    rewrite Hperm. vm_compute. reflexivity.
Defined.

Lemma instructors_cache_miss_on_falsy_witness :
  (∃ instructors,
     sample_get_program_instructors (VRef 1%positive) sample_state_cached_empty
     = (Ok (VList instructors),
        after_cache_set "program.instructors.uuid-1" (VList instructors)
          (after_cache_get "program.instructors.uuid-1"
             sample_state_cached_empty)) ∧
     instructors
       ≡ₚ [sample_instructor "Bob" "edX"; sample_instructor "Ann" "MITx"] ∧
     cache (sample_get_program_instructors (VRef 1%positive)
              sample_state_cached_empty).2 !! "program.instructors.uuid-1"
     = Some (VList instructors)) ∧
  sample_get_program_instructors (VRef 1%positive) sample_state_cached_stale
  = (Ok (VList [sample_instructor "Zed" "edX"]),
     after_cache_get "program.instructors.uuid-1" sample_state_cached_stale).
Proof.
  split.
  - destruct (instructors_cache_miss_on_falsy sample_from_string
                sample_get_course sample_hash sample_hash sample_repr
                (VRef 1%positive) "program.instructors.uuid-1"
                sample_state_cached_empty) as [Hmiss _].
    + vm_compute. reflexivity.
    + intros l. vm_compute. discriminate.
    + destruct (Hmiss ltac:(vm_compute; reflexivity)
                  (sample_program "uuid-1" "data-science" "MicroMasters"
                     ["course-v1:edX+DS101+2017"; "course-v1:edX+DS102+2017"])
                  [VStr "course-v1:edX+DS101+2017";
                   VStr "course-v1:edX+DS102+2017"]
                  ["course-v1:edX+DS101+2017"; "course-v1:edX+DS102+2017"])
        as (instructors & Hrun & Hperm & Hcache).
      * reflexivity.
      * reflexivity.
      * reflexivity.
      * intros k _. apply sample_courses_ok.
      * exists instructors. split; [exact Hrun|]. split; [|exact Hcache].
        rewrite Hperm. vm_compute. reflexivity.
  - destruct (instructors_cache_miss_on_falsy sample_from_string
                sample_get_course sample_hash sample_hash sample_repr
                (VRef 1%positive) "program.instructors.uuid-1"
                sample_state_cached_stale) as [_ Hhit].
    + vm_compute. reflexivity.
    + intros l. vm_compute. discriminate.
    + apply Hhit. vm_compute. reflexivity.
Defined.

Lemma get_program_with_type_and_instructors_spec_witness :
  ∃ l' st',
    sample_get_program_with_type_and_instructors (VStr "data-science")
      sample_state = (Ok (VRef l'), st') ∧
    sample_heap !! l' = None ∧
    field (heap st') (VRef l') "type" = Some (sample_type "MicroMasters") ∧
    field (heap st') (VRef l') "uuid" = Some (VStr "uuid-1").
Proof.
  pose proof (get_program_with_type_and_instructors_spec 100
                sample_integration sample_users 3600 sample_build_token
                (sample_api sample_types) sample_from_string sample_get_course
                sample_hash sample_hash sample_repr "data-science"
                sample_state after_programs
                [VRef 1%positive; VRef 2%positive]
                ltac:(vm_compute; reflexivity)) as Hspec.
  assert (Hslugs : Forall (λ p, readable (heap sample_state) p "marketing_slug")
                     [VRef 1%positive; VRef 2%positive])
    by (repeat constructor; by eexists).
  specialize (Hspec Hslugs). cbv zeta in Hspec.
  assert (Hfind : find (field_is (heap sample_state) "marketing_slug"
                          "data-science")
                    [VRef 1%positive; VRef 2%positive]
                  = Some (VRef 1%positive)) by (vm_compute; reflexivity).
  rewrite Hfind in Hspec.
  specialize (Hspec (VStr "uuid-1")
                (sample_get_programs (VStr "uuid-1") VNone after_programs).2
                1%positive
                (sample_fields "uuid-1" "data-science" "MicroMasters"
                   ["course-v1:edX+DS101+2017"; "course-v1:edX+DS102+2017"])
                "MicroMasters"
                ltac:(vm_compute; reflexivity)
                ltac:(vm_compute; reflexivity)
                ltac:(split_and!; [reflexivity|vm_compute; reflexivity..])).
  match type of Hspec with
  | match ?r with _ => _ end =>
      assert (Htype : r = Ok (sample_type "MicroMasters"))
        by (vm_compute; reflexivity);
      rewrite Htype in Hspec
  end.
  match type of Hspec with
  | match ?r with _ => _ end => destruct r as [instructors|e] eqn:Hinstructors
  end.
  2:{ vm_compute in Hinstructors. discriminate Hinstructors. }
  destruct Hspec as [Hfresh Hrun].
  eexists _, _. split; [exact Hrun|]. split; [exact Hfresh|].
  unfold field, resolved. cbn [heap with_heap]. rewrite lookup_insert_eq.
  split; reflexivity.
Defined.

(** *** Further examples *)

Lemma token_failure_propagates_witness :
  get_programs sample_integration sample_users 3600 sample_failing_token
    (sample_api sample_types) VNone VNone sample_state
  = (Err (External "signing failed"), sample_state) ∧
  get_program_types sample_integration sample_users 3600 sample_failing_token
    (sample_api sample_types) sample_state
  = (Err (External "signing failed"), sample_state).
Proof.
  apply token_failure_propagates.
  - reflexivity.
  - apply list_elem_of_further, list_elem_of_here.
  - reflexivity.
Defined.

Lemma get_program_types_request_witness :
  sample_get_program_types sample_state
  = (Ok (VList sample_types),
     after_api_call
       (program_types_request sample_integration "jwt-for-catalog_worker")
       sample_state).
Proof.
  apply (get_program_types_request sample_integration sample_users 3600
           sample_build_token (sample_api sample_types) sample_state
           "jwt-for-catalog_worker").
  - reflexivity.
  - apply list_elem_of_further, list_elem_of_here.
  - reflexivity.
Defined.

Lemma get_programs_passes_through_witness :
  ∃ r,
    sample_get_programs (VStr "uuid-1") VNone sample_state
      = (sample_api sample_types r, after_api_call r sample_state) ∧
    req_user r = "catalog_worker" ∧
    base_url (req_api r) = "https://catalog.example.com/api/v1/".
Proof.
  destruct (get_programs_passes_through sample_integration sample_users 3600
              sample_build_token (sample_api sample_types)
              (Some "uuid-1") None sample_state "jwt-for-catalog_worker")
    as (r & Hrun & _ & Huser & Hapi).
  - reflexivity.
  - apply list_elem_of_further, list_elem_of_here.
  - reflexivity.
  - exists r. split_and!; [exact Hrun|exact Huser|by rewrite Hapi].
Defined.

Lemma get_programs_type_not_a_string_witness :
  sample_get_programs VNone (VInt 7) sample_state
  = (Err TypeError, sample_state).
Proof.
  apply (get_programs_type_not_a_string sample_integration sample_users 3600
           sample_build_token (sample_api sample_types) VNone (VInt 7)
           sample_state "jwt-for-catalog_worker"); try done.
  apply list_elem_of_further, list_elem_of_here.
Defined.

Lemma composers_unavailable_witness :
  get_programs_with_type 100 sample_disabled sample_users 3600
    sample_build_token (sample_api sample_types) None sample_state
  = (Ok (VList []), sample_state) ∧
  get_program_with_type_and_instructors 100 sample_disabled sample_users 3600
    sample_build_token (sample_api sample_types) sample_from_string
    sample_get_course sample_hash sample_hash sample_repr
    (VStr "data-science") sample_state
  = (Ok VNone, sample_state) ∧
  get_program_type 100 sample_disabled sample_users 3600 sample_build_token
    (sample_api sample_types) (VStr "XSeries") sample_state
  = (Err StopIteration, sample_state).
Proof. apply composers_unavailable. left. reflexivity. Defined.

Lemma get_program_course_run_keys_set_witness :
  get_program_course_run_keys sample_from_string (VRef 1%positive) sample_state
  = (Ok (list_to_set ["course-v1:edX+DS101+2017"; "course-v1:edX+DS102+2017"]),
     sample_state).
Proof.
  apply (get_program_course_run_keys_set sample_from_string (VRef 1%positive)
           (sample_program "uuid-1" "data-science" "MicroMasters"
              ["course-v1:edX+DS101+2017"; "course-v1:edX+DS102+2017"])
           [VStr "course-v1:edX+DS101+2017"; VStr "course-v1:edX+DS102+2017"]
           sample_state); reflexivity.
Defined.

Lemma type_lookups_agree_witness :
  sample_get_program_type (VStr "XSeries") sample_state
  = (match type_named sample_heap sample_types "XSeries" with
     | Some t => Ok t
     | None => Err StopIteration
     end, (sample_get_program_types sample_state).2).
Proof.
  apply (type_lookups_agree 100 sample_integration sample_users 3600
           sample_build_token (sample_api sample_types) "XSeries" sample_state
           _ sample_types).
  - vm_compute. reflexivity.
  - apply sample_types_ok. repeat constructor; by eexists.
  - vm_compute. repeat constructor; rewrite ?elem_of_cons, ?elem_of_nil;
      intros H; repeat destruct H as [H|H]; discriminate || done.
Defined.

Lemma slug_search_needs_slugs_witness :
  sample_get_program_with_type_and_instructors (VStr "writing")
    sample_state_no_slug
  = (Err (KeyError (VStr "marketing_slug")),
     (sample_get_programs VNone VNone sample_state_no_slug).2).
Proof.
  apply (slug_search_needs_slugs 100 sample_integration sample_users 3600
           sample_build_token (sample_api sample_types) sample_from_string
           sample_get_course sample_hash sample_hash sample_repr
           "writing" sample_state_no_slug _ [] [VRef 2%positive]
           (VRef 1%positive) [(KStr "uuid", VStr "uuid-1")]).
  - vm_compute. reflexivity.
  - constructor.
  - reflexivity.
  - reflexivity.
Defined.

Lemma distinct_instructors_all_returned_witness :
  ∃ instructors,
    sample_get_program_instructors (VRef 1%positive) sample_state_single
    = (Ok (VList instructors),
       after_cache_set "program.instructors.uuid-3" (VList instructors)
         (after_cache_get "program.instructors.uuid-3" sample_state_single)) ∧
    instructors ≡ₚ [sample_instructor "Ann" "edX"; sample_instructor "Bob" "edX"].
Proof.
  destruct (distinct_instructors_all_returned sample_from_string
              sample_get_course sample_hash sample_hash sample_repr
              (VRef 1%positive) "program.instructors.uuid-3"
              ({["course-v1:edX+DS101+2017"]} ∪ ∅)
              sample_state_single)
    as (instructors & Hrun & Hperm).
  - vm_compute. reflexivity.
  - vm_compute. reflexivity.
  - vm_compute. reflexivity.
  - intros k _. apply sample_courses_ok.
  - apply (bool_decide_unpack _). vm_compute. exact I.
  - exists instructors. split; [exact Hrun|].
    rewrite Hperm. vm_compute. reflexivity.
Defined.

Lemma bad_instructor_info_fails_witness :
  _get_program_instructors sample_from_string sample_get_course_broken
    sample_hash sample_hash sample_repr (VRef 1%positive) sample_state
  = (Err AttributeError,
     after_cache_get "program.instructors.uuid-1" sample_state).
Proof.
  apply (bad_instructor_info_fails sample_from_string sample_get_course_broken
           sample_hash sample_hash sample_repr
           (VRef 1%positive) "program.instructors.uuid-1"
           ({["course-v1:edX+DS102+2017"]} ∪
              ({["course-v1:edX+DS101+2017"]} ∪ ∅))
           sample_state).
  - vm_compute. reflexivity.
  - vm_compute. reflexivity.
  - vm_compute. reflexivity.
  - intros k _.
    destruct (decide (k = "course-v1:edX+DS102+2017")) as [->|Hk].
    + right. do 2 eexists. split_and!; [reflexivity|reflexivity|exact I].
    + left. unfold course_ok, course_instructors, sample_get_course_broken.
      rewrite decide_False by done. apply sample_courses_ok.
  - exists "course-v1:edX+DS102+2017". split.
    + apply elem_of_union_l, elem_of_singleton. reflexivity.
    + do 2 eexists. split_and!; [reflexivity|reflexivity|exact I].
Defined.

Lemma cached_instructors_outlive_changes_witness :
  ∃ instructors,
    let first_call := sample_get_program_instructors (VRef 1%positive)
                        sample_state in
    first_call.1 = Ok (VList instructors) ∧
    _get_program_instructors sample_from_string (λ _, None)
      sample_hash sample_hash sample_repr (VRef 1%positive) first_call.2
    = (Ok (VList instructors),
       after_cache_get "program.instructors.uuid-1" first_call.2).
Proof.
  eexists.
  apply (cached_instructors_outlive_changes sample_from_string
           sample_get_course (λ _, None) sample_hash sample_hash sample_repr
           (VRef 1%positive) "program.instructors.uuid-1" sample_state).
  - vm_compute. reflexivity.
  - vm_compute. reflexivity.
  - vm_compute. reflexivity.
  - discriminate.
Defined.

Lemma programs_without_uuid_share_instructors_witness :
  sample_get_program_instructors (VRef 2%positive)
    (sample_get_program_instructors (VRef 1%positive) sample_state_no_uuid).2
  = (Ok (VList [sample_instructor "Ann" "edX"; sample_instructor "Bob" "edX"]),
     after_cache_get "program.instructors.None"
       (after_cache_set "program.instructors.None"
          (VList [sample_instructor "Ann" "edX"; sample_instructor "Bob" "edX"])
          (after_cache_get "program.instructors.None" sample_state_no_uuid))).
Proof.
  apply (programs_without_uuid_share_instructors sample_from_string
           sample_get_course sample_hash sample_hash sample_repr
           (VRef 1%positive) (VRef 2%positive)
           [(KStr "courses", VList [sample_course "course-v1:edX+DS101+2017"])]
           [(KStr "uuid", VNone);
            (KStr "courses", VList [sample_course "course-v1:edX+W1+2017"])]
           sample_state_no_uuid).
  - reflexivity.
  - reflexivity.
  - reflexivity.
  - reflexivity.
  - vm_compute. reflexivity.
  - vm_compute. reflexivity.
  - discriminate.
Defined.

Lemma instructors_need_courses_witness :
  sample_get_program_instructors (VRef 1%positive) sample_state_no_slug
  = (Err (KeyError (VStr "courses")),
     after_cache_get "program.instructors.uuid-1" sample_state_no_slug).
Proof.
  apply (instructors_need_courses sample_from_string sample_get_course
           sample_hash sample_hash sample_repr (VRef 1%positive)
           [(KStr "uuid", VStr "uuid-1")] "program.instructors.uuid-1"
           sample_state_no_slug).
  - reflexivity.
  - vm_compute. reflexivity.
  - vm_compute. reflexivity.
  - reflexivity.
Defined.

Lemma instructors_touch_own_entry_only_witness :
  cache (sample_get_program_instructors (VRef 1%positive) sample_state).2
    !! "program.instructors.uuid-2"
  = cache sample_state !! "program.instructors.uuid-2".
Proof.
  apply (instructors_touch_own_entry_only sample_from_string sample_get_course
           sample_hash sample_hash sample_repr (VRef 1%positive) sample_state).
  vm_compute. discriminate.
Defined.
